(** * The client / project / model registry of the architectural viewer

    A shallow embedding of the admin server (the Express application with
    the [clients] table, the multer upload pipeline and the six JSON
    routes) and the properties of its registry.

    Modelling conventions.
    - A JavaScript string is a Rocq [string] whose characters are read as
      UTF-16 code units below 256 (the Latin-1 range); [toLowerCase], the
      regular-expression classes [\s] and [\w] and the word boundary [\b]
      are written out for that range.
    - A JavaScript object used as a table ([clients], [client.projects]) is
      the list of its own properties in property order: array-index keys in
      ascending numeric order, then the other keys in insertion order.
      [Object.keys], [Object.values], [Object.entries] and [delete] see the
      own properties only.  A read [o[k]] goes on to the prototype chain
      when [o] has no own property [k]: it finds the members of
      [Object.prototype] ([constructor], [toString], [__proto__], ...), and
      an assignment [o.__proto__ = p] replaces the prototype of [o] instead
      of adding a property.
    - An exception that leaves a handler is the outcome [TypeError]; what
      Express answers then is not part of the program text.
    - Form fields, path parameters and the members of a JSON body are
      single strings or absent, and an upload has one file part at most:
      repeated or bracketed field names, which multer delivers as arrays or
      objects, other JSON values and multer's limits on fields are outside
      the model.
    - The file system is the set of file names of the upload directory, the
      set of file names of its backup directory, and the set of names on
      which [fs.renameSync] raises.
    - [Date.now()] and the calendar date of a request are inputs of the
      request. *)

From Stdlib Require Import Ascii String NArith.
From stdpp Require Import base decidable option list strings gmap pretty.

(** ** JavaScript strings *)

Module Js.

Local Open Scope N_scope.

Definition code (c : ascii) : N := N_of_ascii c.

(** [\s], restricted to code units below 256: TAB, LF, VT, FF, CR, SPACE
    and NO-BREAK SPACE. *)
Definition is_space (c : ascii) : bool :=
  let n := code c in
  ((9 <=? n) && (n <=? 13)) || (n =? 32) || (n =? 160).

Definition is_digit (c : ascii) : bool :=
  let n := code c in (48 <=? n) && (n <=? 57).

Definition is_lower (c : ascii) : bool :=
  let n := code c in (97 <=? n) && (n <=? 122).

Definition is_upper (c : ascii) : bool :=
  let n := code c in (65 <=? n) && (n <=? 90).

(** [\w] is [[A-Za-z0-9_]]. *)
Definition is_word (c : ascii) : bool :=
  is_upper c || is_lower c || is_digit c || (code c =? 95).

(** Letters and digits, the alphanumeric characters. *)
Definition is_alnum (c : ascii) : bool :=
  is_upper c || is_lower c || is_digit c.

(** [String.prototype.toLowerCase] on one code unit: A-Z and the
    Latin-1 capitals U+00C0..U+00DE (without the multiplication sign
    U+00D7) move up by 32. *)
Definition lower_char (c : ascii) : ascii :=
  let n := code c in
  if is_upper c || ((192 <=? n) && (n <=? 222) && negb (n =? 215))
  then ascii_of_N (n + 32) else c.

(** [toUpperCase] on a character matched by [\w]: only a-z change. *)
Definition upper_char (c : ascii) : ascii :=
  if is_lower c then ascii_of_N (code c - 32) else c.

Fixpoint map (f : ascii → ascii) (s : string) : string :=
  match s with
  | EmptyString => EmptyString
  | String c s' => String (f c) (map f s')
  end.

Definition toLowerCase (s : string) : string := map lower_char s.

(** [s.replace(/[p]+/g, r)]: every maximal run of characters of the
    class [p] becomes one copy of [r].  [inrun] tells that the character
    before [s] belonged to a run already replaced. *)
Fixpoint replace_runs (p : ascii → bool) (r : string) (inrun : bool)
    (s : string) : string :=
  match s with
  | EmptyString => EmptyString
  | String c s' =>
      if p c then
        if inrun then replace_runs p r true s'
        else r +:+ replace_runs p r true s'
      else String c (replace_runs p r false s')
  end.

(** [s.replace(/c/g, d)] for single characters. *)
Definition replace_char (c d : ascii) (s : string) : string :=
  map (λ x, if Ascii.eqb x c then d else x) s.

(** [s.replace(/\b\w/g, l => l.toUpperCase())]: a word character is
    matched when the character before it (in the subject string) is not a
    word character; [prev] is whether that character is one. *)
Fixpoint capitalize_words (prev : bool) (s : string) : string :=
  match s with
  | EmptyString => EmptyString
  | String c s' =>
      String (if is_word c && negb prev then upper_char c else c)
             (capitalize_words (is_word c) s')
  end.

(** [s.endsWith(suffix)]. *)
Fixpoint endsWith (s suffix : string) : bool :=
  if String.eqb s suffix then true
  else match s with
       | EmptyString => false
       | String _ s' => endsWith s' suffix
       end.

(** [!v] for a value that is a string or [undefined]. *)
Definition falsy (v : option string) : bool :=
  match v with
  | None => true
  | Some s => String.eqb s ""
  end.

(** [v || d] for a value that is a string or [undefined]. *)
Definition or_else (v : option string) (d : string) : string :=
  match v with
  | Some s => if String.eqb s "" then d else s
  | None => d
  end.

(** Number-to-string conversion of a non-negative integer below 1e21:
    its decimal digits. *)
Definition number_to_string (n : N) : string := pretty n.

(** The property names of [Object.prototype]: every object created by an
    object literal inherits them. *)
Definition object_prototype_names : list string :=
  ["constructor"; "__defineGetter__"; "__defineSetter__"; "hasOwnProperty";
   "__lookupGetter__"; "__lookupSetter__"; "isPrototypeOf";
   "propertyIsEnumerable"; "toString"; "valueOf"; "__proto__";
   "toLocaleString"].

(** [k] names a member of [Object.prototype]. *)
Definition inherited (k : string) : bool :=
  existsb (String.eqb k) object_prototype_names.

(** What a read [o[k]] on a table gives: an object of the kind the table
    holds, a string, a member of [Object.prototype] (a function, or
    [Object.prototype] itself under [__proto__]), or [undefined]. *)
Inductive Read (V : Type) :=
| Entry (v : V)
| Text (s : string)
| Builtin
| Undefined.

Arguments Entry {V} v.
Arguments Text {V} s.
Arguments Builtin {V}.
Arguments Undefined {V}.

(** [!!v] for the value of a read: objects and functions are truthy, a
    string is truthy unless it is empty. *)
Definition truthy {V} (r : Read V) : bool :=
  match r with
  | Entry _ => true
  | Text s => negb (String.eqb s "")
  | Builtin => true
  | Undefined => false
  end.

End Js.

(** ** JavaScript objects used as tables *)

Module Obj.

(** An array index is the canonical decimal spelling of an integer
    below 2^32 - 1; such keys are enumerated first, in numeric order. *)
Fixpoint parse_digits (acc : N) (s : string) : option N :=
  match s with
  | EmptyString => Some acc
  | String c s' =>
      if Js.is_digit c
      then parse_digits (10 * acc + (Js.code c - 48))%N s'
      else None
  end.

Definition array_index (k : string) : option N :=
  match k with
  | EmptyString => None
  | _ =>
      match parse_digits 0 k with
      | Some n =>
          if String.eqb (Js.number_to_string n) k && (n <? 4294967295)%N
          then Some n else None
      | None => None
      end
  end.

Section Table.
Context {V : Type}.

Definition t := list (string * V).

(** The own property [k] of [o], if it has one: the first step of a read
    [o[k]], which goes on to the prototype chain when there is none (see
    [read_client] and [Client.read_project]). *)
Fixpoint get (k : string) (o : t) : option V :=
  match o with
  | [] => None
  | (k', v) :: o' => if String.eqb k' k then Some v else get k o'
  end.

(** [Object.keys(o)], [Object.values(o)]; [Object.entries(o)] is [o]. *)
Definition keys (o : t) : list string := o.*1.
Definition values (o : t) : list V := o.*2.

(** In-place change of the value stored under [k]; the position of the
    property is kept. *)
Fixpoint update (k : string) (f : V → V) (o : t) : t :=
  match o with
  | [] => []
  | (k', v) :: o' =>
      if String.eqb k' k then (k', f v) :: o'
      else (k', v) :: update k f o'
  end.

(** Position of a new array-index key [k] = [n]: before the first
    property that is not an array index or has a larger index. *)
Fixpoint insert_index (n : N) (k : string) (v : V) (o : t) : t :=
  match o with
  | [] => [(k, v)]
  | (k', v') :: o' =>
      match array_index k' with
      | Some n' =>
          if (n' <? n)%N then (k', v') :: insert_index n k v o'
          else (k, v) :: o
      | None => (k, v) :: o
      end
  end.

(** [o[k] = v] as far as it writes or adds an own property: every key
    but [__proto__] (see [Client.assign_project]). *)
Definition set (k : string) (v : V) (o : t) : t :=
  match get k o with
  | Some _ => update k (λ _, v) o
  | None =>
      match array_index k with
      | Some n => insert_index n k v o
      | None => o ++ [(k, v)]
      end
  end.

(** [delete o[k]]: the own property [k] is removed, if there is one. *)
Fixpoint remove (k : string) (o : t) : t :=
  match o with
  | [] => []
  | (k', v) :: o' =>
      if String.eqb k' k then remove k o' else (k', v) :: remove k o'
  end.

(** An object has each key once. *)
Definition wf (o : t) : Prop := NoDup (keys o).

End Table.

Arguments t : clear implicits.

End Obj.

(** ** Data model *)

Module Project.
Record t := mk {
  filename : string;
  description : string;
  uploaded : string
}.

(** The own property [k] of a project record, if it has one. *)
Definition field (k : string) (p : t) : option string :=
  if String.eqb k "filename" then Some (filename p)
  else if String.eqb k "description" then Some (description p)
  else if String.eqb k "uploaded" then Some (uploaded p)
  else None.
End Project.

(** [projects] holds the own properties of the object [client.projects];
    [projects_proto] is the prototype of that object once an assignment to
    [__proto__] has replaced [Object.prototype] by a project record, and
    [None] as long as the prototype is [Object.prototype]. *)
Module Client.
Record t := mk {
  name : string;
  contact : string;
  projects : Obj.t Project.t;
  projects_proto : option Project.t
}.

(** [client.projects[k]]: an own property; else a property of the project
    record that is the prototype, or that record itself under [__proto__];
    else a member of [Object.prototype]. *)
Definition read_project (k : string) (c : t) : Js.Read Project.t :=
  match Obj.get k (projects c) with
  | Some p => Js.Entry p
  | None =>
      match projects_proto c with
      | Some proto =>
          match Project.field k proto with
          | Some s => Js.Text s
          | None =>
              if String.eqb k "__proto__" then Js.Entry proto
              else if Js.inherited k then Js.Builtin else Js.Undefined
          end
      | None => if Js.inherited k then Js.Builtin else Js.Undefined
      end
  end.

(** [client.projects[k] = p]: an own property is written, or added; on
    an object without an own property [__proto__] the assignment to that
    name sets the prototype and adds nothing. *)
Definition assign_project (k : string) (p : Project.t) (c : t) : t :=
  match Obj.get k (projects c) with
  | Some _ =>
      mk (name c) (contact c) (Obj.set k p (projects c)) (projects_proto c)
  | None =>
      if String.eqb k "__proto__"
      then mk (name c) (contact c) (projects c) (Some p)
      else
        mk (name c) (contact c) (Obj.set k p (projects c)) (projects_proto c)
  end.

(** [delete client.projects[k]]: only an own property is removed. *)
Definition delete_project (k : string) (c : t) : t :=
  mk (name c) (contact c) (Obj.remove k (projects c)) (projects_proto c).
End Client.

(** The file part of a multipart request as multer hands it to
    [fileFilter] and to the storage engine. *)
Module File.
Record t := mk {
  originalname : string;
  mimetype : string;
  size : N
}.
End File.

(** The upload directory [uploadDir], its backup directory [backupDir] and
    [fs.existsSync] / [fs.renameSync] on them. *)
Module Fs.

Record t := mk {
  uploadDir : gset string;
  backupDir : gset string;
  rename_raises : gset string
}.

(** [fs.existsSync(path.join(__dirname, uploadDir, f))]. *)
Definition existsSync (f : string) (d : t) : bool :=
  bool_decide (f ∈ uploadDir d).

(** [fs.renameSync(oldPath, newPath)] from the upload directory to the
    backup directory; [None] when it raises. *)
Definition renameSync (f : string) (d : t) : option t :=
  if bool_decide (f ∈ uploadDir d) && bool_decide (f ∉ rename_raises d)
  then Some (mk (uploadDir d ∖ {[f]}) ({[f]} ∪ backupDir d)
                (rename_raises d))
  else None.

(** The storage engine writing an accepted file under the name [f]. *)
Definition write (f : string) (d : t) : t :=
  mk ({[f]} ∪ uploadDir d) (backupDir d) (rename_raises d).

(** The storage engine removing again what it wrote under the name [f]. *)
Definition unlink (f : string) (d : t) : t :=
  mk (uploadDir d ∖ {[f]}) (backupDir d) (rename_raises d).

End Fs.

Record State := mkState {
  clients : Obj.t Client.t;
  disk : Fs.t
}.

(** [clients[k]]: an own property, else a member of [Object.prototype];
    the prototype of [clients] is never replaced. *)
Definition read_client (k : string) (cs : Obj.t Client.t)
    : Js.Read Client.t :=
  match Obj.get k cs with
  | Some c => Js.Entry c
  | None => if Js.inherited k then Js.Builtin else Js.Undefined
  end.

(** The [clients] table as the program text initialises it. *)
Definition clients_init : Obj.t Client.t :=
  [("highway-projects",
    Client.mk "Highway Projects Inc." "john@highwayproj.com"
      [("highway001",
        Project.mk "1758121257346-4650_highway_a1a_revised_7.24.glb"
                   "A1A Highway Revision 7.24" "2024-01-15")]
      None)].

(** A process started on empty directories. *)
Definition state_init : State := mkState clients_init (Fs.mk ∅ ∅ ∅).

(** ** Responses *)

Module ClientView.
Record t := mk {
  id : string;
  name : string;
  contact : string;
  projects : Obj.t Project.t;
  projectCount : nat
}.
End ClientView.

Inductive Body :=
| ErrorBody (error : string)
| UploadedBody (message filename url clientId projectId : string)
| ClientsBody (clients : list ClientView.t)
| ClientAddedBody (message clientId : string)
| ProjectDeletedBody (message : string) (remainingProjects : nat)
| MessageBody (message : string)
| ModelBody (modelPath clientName projectName description : string).

(** What a request ends in: [res.status(s).json(b)] ([res.json(b)] is
    status 200); an error that the upload middleware passes to Express'
    own error handling ([next(err)]); or an exception (a [TypeError]) that
    leaves the handler before it has answered. *)
Inductive Outcome :=
| Respond (status : nat) (body : Body)
| NextError (message : string)
| TypeError.

(** The HTTP status of a request that the handler answered. *)
Definition status_of (o : Outcome) : option nat :=
  match o with
  | Respond status _ => Some status
  | NextError _ => None
  | TypeError => None
  end.

(** ** The upload pipeline: [multer({storage, limits, fileFilter})] *)

(** [storage.filename]. *)
Definition storage_filename (now : N) (file : File.t) : string :=
  Js.number_to_string now +:+ "-" +:+
  Js.replace_runs Js.is_space "_" false (File.originalname file).

(** [limits.fileSize]. *)
Definition fileSize_limit : N := 100 * 1024 * 1024.

(** [fileFilter]: the arguments it passes to [cb], an error or [null] and
    whether the file is to be stored. *)
Definition fileFilter (file : File.t) : option string * bool :=
  if String.eqb (File.mimetype file) "model/gltf-binary"
     || Js.endsWith (File.originalname file) ".glb"
  then (None, true)
  else (Some "Only .glb files are allowed", false).

(** [upload.single('model')] on a request with one file part at most, in
    the field [model]: the filter runs on the part's headers, then the
    storage engine writes the file under its stored name; when the file
    goes beyond the size limit, what was written under that name is
    removed again and the request fails.  The result is the error handed
    to [next], or [req.file] (its stored name), and the disk. *)
Definition upload_single (now : N) (file : option File.t) (d : Fs.t)
    : (string + option string) * Fs.t :=
  match file with
  | None => (inr None, d)
  | Some f =>
      match fileFilter f with
      | (Some err, _) => (inl err, d)
      | (None, false) => (inr None, d)
      | (None, true) =>
          let stored := storage_filename now f in
          if (fileSize_limit <? File.size f)%N
          then (inl "File too large", Fs.unlink stored (Fs.write stored d))
          else (inr (Some stored), Fs.write stored d)
      end
  end.

(** ** The routes *)

(** The display name of a client created by an upload. *)
Definition humanize (clientId : string) : string :=
  Js.capitalize_words false (Js.replace_char "-" " " clientId).

(** The table after [if (!clients[clientId]) clients[clientId] = {...}]
    of the upload route. *)
Definition ensure_client (cid : string) (cs : Obj.t Client.t)
    : Obj.t Client.t :=
  if Js.truthy (read_client cid cs) then cs
  else Obj.set cid (Client.mk (humanize cid) "" [] None) cs.

(** [POST /api/admin/upload].  In the [try] block, the read
    [clients[clientId].projects] raises when [clients[clientId]] is not a
    client (a member of [Object.prototype] has no [projects]); the [catch]
    answers status 500. *)
Definition post_admin_upload (now : N) (today : string)
    (file : option File.t) (clientId projectId description : option string)
    (st : State) : Outcome * State :=
  match upload_single now file (disk st) with
  | (inl err, d) => (NextError err, mkState (clients st) d)
  | (inr None, d) =>
      (Respond 400 (ErrorBody "No file uploaded or invalid file type"),
       mkState (clients st) d)
  | (inr (Some stored), d) =>
      if Js.falsy clientId || Js.falsy projectId then
        (Respond 400 (ErrorBody "Client ID and Project ID are required"),
         mkState (clients st) d)
      else
        let cid := default "" clientId in
        let pid := default "" projectId in
        let cs := ensure_client cid (clients st) in
        match read_client cid cs with
        | Js.Entry _ =>
            let project :=
              Project.mk stored (Js.or_else description ("Project " +:+ pid))
                today in
            (Respond 200
               (UploadedBody "Model uploaded and linked successfully" stored
                  ("/uploads/" +:+ stored) cid pid),
             mkState (Obj.update cid (Client.assign_project pid project) cs)
               d)
        | _ =>
            (Respond 500 (ErrorBody "Failed to process upload"),
             mkState cs d)
        end
  end.

(** [GET /api/admin/clients]. *)
Definition get_admin_clients (st : State) : Outcome :=
  Respond 200
    (ClientsBody
       (List.map
          (λ '(id, client),
             ClientView.mk id (Client.name client) (Client.contact client)
               (Client.projects client)
               (length (Obj.keys (Client.projects client))))
          (clients st))).

(** The client id [POST /api/admin/client] derives from a name. *)
Definition derive_clientId (name : string) : string :=
  Js.replace_runs Js.is_space "-" false (Js.toLowerCase name).

(** [POST /api/admin/client]. *)
Definition post_admin_client (name contact : option string) (st : State)
    : Outcome * State :=
  if Js.falsy name then
    (Respond 400 (ErrorBody "Client name is required"), st)
  else
    let nm := default "" name in
    let clientId := derive_clientId nm in
    if Js.truthy (read_client clientId (clients st)) then
      (Respond 400 (ErrorBody "Client already exists"), st)
    else
      (Respond 200 (ClientAddedBody "Client added successfully" clientId),
       mkState
         (Obj.set clientId (Client.mk nm (Js.or_else contact "") [] None)
            (clients st))
         (disk st)).

(** The move of one stored file to the backup directory, as both delete
    routes do it: nothing happens when the file is not in the upload
    directory; [None] when [renameSync] raises. *)
Definition move_to_backup (filename : string) (d : Fs.t) : option Fs.t :=
  if Fs.existsSync filename d then Fs.renameSync filename d else Some d.

(** [DELETE /api/admin/client/:clientId/project/:projectId].  When
    [clients[clientId]] is truthy but no client, [client.projects] is
    [undefined] and the read [client.projects[projectId]] raises before
    the [try] block.  When [client.projects[projectId]] is truthy but no
    project, its [filename] is [undefined], [path.join] raises in the [try]
    block and the [catch] answers status 500. *)
Definition delete_admin_project (clientId projectId : string) (st : State)
    : Outcome * State :=
  let client := read_client clientId (clients st) in
  if negb (Js.truthy client) then
    (Respond 404 (ErrorBody "Client not found"), st)
  else
    match client with
    | Js.Entry client =>
        let project := Client.read_project projectId client in
        if negb (Js.truthy project) then
          (Respond 404 (ErrorBody "Project not found"), st)
        else
          match project with
          | Js.Entry project =>
              match move_to_backup (Project.filename project) (disk st) with
              | None =>
                  (Respond 500 (ErrorBody "Failed to move project to backup"),
                   st)
              | Some d =>
                  let remaining :=
                    Obj.remove projectId (Client.projects client) in
                  (Respond 200
                     (ProjectDeletedBody
                        ("Project " +:+ projectId +:+
                         " moved to backup successfully")
                        (length (Obj.keys remaining))),
                   mkState
                     (Obj.update clientId (Client.delete_project projectId)
                        (clients st))
                     d)
              end
          | _ =>
              (Respond 500 (ErrorBody "Failed to move project to backup"), st)
          end
    | _ => (TypeError, st)
    end.

(** The [forEach] of the client delete: the files are moved one by one;
    when a move raises, the moves already done stay done.  [inl] is the
    disk at the exception, [inr] the disk after the loop. *)
Fixpoint move_all (ps : list Project.t) (d : Fs.t) : Fs.t + Fs.t :=
  match ps with
  | [] => inr d
  | p :: ps' =>
      match move_to_backup (Project.filename p) d with
      | None => inl d
      | Some d' => move_all ps' d'
      end
  end.

(** [DELETE /api/admin/client/:clientId].  When [clients[clientId]] is
    truthy but no client, [Object.values(client.projects)] raises in the
    [try] block and the [catch] answers status 500. *)
Definition delete_admin_client (clientId : string) (st : State)
    : Outcome * State :=
  let client := read_client clientId (clients st) in
  if negb (Js.truthy client) then
    (Respond 400 (ErrorBody "Client not found"), st)
  else
    match client with
    | Js.Entry client =>
        match move_all (Obj.values (Client.projects client)) (disk st) with
        | inl d =>
            (Respond 500
               (ErrorBody "Failed to move client projects to backup"),
             mkState (clients st) d)
        | inr d =>
            (Respond 200
               (MessageBody
                  ("Client " +:+ clientId +:+
                   " and all projects moved to backup successfully")),
             mkState (Obj.remove clientId (clients st)) d)
        end
    | _ =>
        (Respond 500 (ErrorBody "Failed to move client projects to backup"),
         st)
    end.

(** The [find] of the lookup route: the first client, in property order,
    whose lowercased name is the lowercased request name. *)
Definition findClientByName (clientName : string) (cs : Obj.t Client.t)
    : option Client.t :=
  List.find
    (λ c, String.eqb (Js.toLowerCase (Client.name c))
                     (Js.toLowerCase clientName))
    (Obj.values cs).

Definition dquote : string := String "034"%char EmptyString.

(** [GET /api/client/:clientName/project/:number].  The handler has no
    [try] block: when [client.projects[projectNumber]] is truthy but no
    project, its [filename] is [undefined] and [path.join] raises. *)
Definition get_client_project (clientName projectNumber : string) (st : State)
    : Outcome :=
  match findClientByName clientName (clients st) with
  | None =>
      Respond 404
        (ErrorBody ("Client " +:+ dquote +:+ clientName +:+ dquote +:+
                    " not found"))
  | Some client =>
      let project := Client.read_project projectNumber client in
      if Js.truthy project then
        match project with
        | Js.Entry project =>
            if Fs.existsSync (Project.filename project) (disk st) then
              Respond 200
                (ModelBody ("/uploads/" +:+ Project.filename project)
                   (Client.name client) projectNumber
                   (Project.description project))
            else Respond 404 (ErrorBody "Model file not found")
        | _ => TypeError
        end
      else
        Respond 404
          (ErrorBody ("Project " +:+ dquote +:+ projectNumber +:+ dquote +:+
                      " not found for " +:+ Client.name client))
  end.

(** ** The server as a transition system *)

(** The requests of the six routes, with their inputs: the clock and the
    calendar date of an upload, its file part and its form fields; the
    members of the JSON body of a client creation; the path parameters of
    the other routes.  A form field or body member is a string, or [None]
    when it is absent. *)
Inductive Request :=
| Upload (now : N) (today : string) (file : option File.t)
    (clientId projectId description : option string)
| ListClients
| CreateClient (name contact : option string)
| DeleteProject (clientId projectId : string)
| DeleteClient (clientId : string)
| Resolve (clientName projectNumber : string).

Definition handle (r : Request) (st : State) : Outcome * State :=
  match r with
  | Upload now today file clientId projectId description =>
      post_admin_upload now today file clientId projectId description st
  | ListClients => (get_admin_clients st, st)
  | CreateClient name contact => post_admin_client name contact st
  | DeleteProject clientId projectId =>
      delete_admin_project clientId projectId st
  | DeleteClient clientId => delete_admin_client clientId st
  | Resolve clientName projectNumber =>
      (get_client_project clientName projectNumber st, st)
  end.

(** The requests are served one after the other. *)
Fixpoint run (rs : list Request) (st : State) : list Outcome * State :=
  match rs with
  | [] => ([], st)
  | r :: rs' =>
      let '(o, st') := handle r st in
      let '(os, st'') := run rs' st' in
      (o :: os, st'')
  end.

(** The states of a process: it starts from the initial table on some
    disk and serves requests. *)
Definition reachable (st : State) : Prop :=
  ∃ (d : Fs.t) (rs : list Request), st = (run rs (mkState clients_init d)).2.

(** Every table of the state has each of its keys once. *)
Definition wf_state (st : State) : Prop :=
  Obj.wf (clients st) ∧
  Forall (λ c, Obj.wf (Client.projects c)) (Obj.values (clients st)).

(** ** Vocabulary of the properties *)

(** The number of projects of a client, [Object.keys(client.projects).length];
    0 for a client that is not in the table. *)
Definition projectCount (clientId : string) (cs : Obj.t Client.t) : nat :=
  match Obj.get clientId cs with
  | Some c => length (Obj.keys (Client.projects c))
  | None => 0
  end.

(** The project [projectId] of the client [clientId] is in the table. *)
Definition has_project (clientId projectId : string) (cs : Obj.t Client.t)
    : Prop :=
  ∃ client,
    Obj.get clientId cs = Some client ∧
    is_Some (Obj.get projectId (Client.projects client)).

(** A client after [delete client.projects[projectId]]. *)
Definition without_project (projectId : string) (c : Client.t) : Client.t :=
  Client.delete_project projectId c.

(** Some project of the table has [f] as its stored file. *)
Definition referenced (f : string) (cs : Obj.t Client.t) : Prop :=
  ∃ c p,
    c ∈ Obj.values cs ∧ p ∈ Obj.values (Client.projects c) ∧
    Project.filename p = f.

(** A file descriptor of a binary glTF model: by its declared MIME type or
    by the extension of its original name. *)
Definition glb_file (file : File.t) : Prop :=
  File.mimetype file = "model/gltf-binary" ∨
  ∃ stem, File.originalname file = stem +:+ ".glb".

(** A file the upload pipeline stores: the filter accepts it and it is
    within the size limit. *)
Definition accepted_file (file : File.t) : Prop :=
  glb_file file ∧ (File.size file ≤ fileSize_limit)%N.

Fixpoint all_chars (p : ascii → bool) (s : string) : bool :=
  match s with
  | EmptyString => true
  | String c s' => p c && all_chars p s'
  end.

(** The rest of a subject string after a word: empty, or starting with a
    character that is not a word character. *)
Definition word_ends (rest : string) : Prop :=
  match rest with
  | EmptyString => True
  | String c _ => Js.is_word c = false
  end.

(** A disk on which the seeded model file exists and cannot be renamed. *)
Definition state_locked : State :=
  mkState clients_init
    (Fs.mk {["1758121257346-4650_highway_a1a_revised_7.24.glb"]} ∅
           {["1758121257346-4650_highway_a1a_revised_7.24.glb"]}).

(** Two projects stored as [a.glb] and [b.glb]; the second file cannot be
    renamed. *)
Definition state_half_locked : State :=
  mkState
    [("acme-co",
      Client.mk "Acme Co" ""
        [("p1", Project.mk "1-a.glb" "Project p1" "2025-09-17");
         ("p2", Project.mk "2-b.glb" "Project p2" "2025-09-17")] None)]
    (Fs.mk {["1-a.glb"; "2-b.glb"]} ∅ {["2-b.glb"]}).

(** ** The statements of the specification *)

(** The client id as the specification of [createClient] words it: the
    name in lower case, every run of non-alphanumeric characters replaced
    by one hyphen. *)
Definition spec_clientId (name : string) : string :=
  Js.replace_runs (λ c, negb (Js.is_alnum c)) "-" false (Js.toLowerCase name).

(** The stated derivation: the id returned for a new client is that
    one. *)
Definition spec_createClient_id : Prop :=
  ∀ name contact st message clientId st',
    post_admin_client (Some name) contact st
      = (Respond 200 (ClientAddedBody message clientId), st') →
    clientId = spec_clientId name.

(** The stated policy of the project delete: whenever both keys are
    present, the delete removes the entry, whatever happens to the file. *)
Definition spec_delete_never_blocked_by_move : Prop :=
  ∀ clientId projectId st,
    has_project clientId projectId (clients st) →
    ¬ has_project clientId projectId
        (clients (delete_admin_project clientId projectId st).2).

(** The stated uniqueness: in a run of the server, two different requests
    that are accepted uploads report different stored file names. *)
Definition spec_stored_names_unique : Prop :=
  ∀ rs st i j m1 f1 u1 c1 p1 m2 f2 u2 c2 p2,
    i ≠ j →
    (run rs st).1 !! i = Some (Respond 200 (UploadedBody m1 f1 u1 c1 p1)) →
    (run rs st).1 !! j = Some (Respond 200 (UploadedBody m2 f2 u2 c2 p2)) →
    f1 ≠ f2.

(** The humanized id, character by character: a hyphen becomes a space,
    the first character of every word (a maximal run of word characters)
    is put in upper case, every other character is kept.  [prev_word]
    tells whether the character before is a word character. *)
Definition humanize_char (prev_word : bool) (c : ascii) : ascii :=
  if Ascii.eqb c "-" then " "%char
  else if Js.is_word c && negb prev_word then Js.upper_char c
  else c.

Definition spec_humanize_at (clientId : string) (i : nat) : option ascii :=
  let prev_word :=
    match i with
    | 0 => false
    | S j => from_option Js.is_word false (String.get j clientId)
    end in
  humanize_char prev_word <$> String.get i clientId.

(** A word with its first letter in upper case. *)
Definition capitalize (w : string) : string :=
  match w with
  | EmptyString => EmptyString
  | String c w' => String (Js.upper_char c) w'
  end.

Fixpoint join (sep : string) (ws : list string) : string :=
  match ws with
  | [] => ""
  | [w] => w
  | w :: ws' => w +:+ sep +:+ join sep ws'
  end.

(** The humanized id of words joined by hyphens: the words, each
    capitalized, joined by spaces. *)
Definition spec_humanize (words : list string) : string :=
  join " " (List.map capitalize words).

(** ** The standalone upload page ([server.js]) *)

Module Server.


(** [storage.filename]: a file is stored under its original name. *)
Definition storage_filename (file : File.t) : string :=
  File.originalname file.


(** [`/uploads/${modelFile.originalname}`]. *)
Definition modelPath (modelFile : File.t) : string :=
  "/uploads/" +:+ File.originalname modelFile.




End Server.

(** ** Further vocabulary *)

(** The stored file names of a list of projects. *)
Definition filenames (ps : list Project.t) : gset string :=
  list_to_set (Project.filename <$> ps).


(** The request was answered with status 200. *)
Definition succeeded (o : Outcome) : bool :=
  match o with
  | Respond 200 _ => true
  | _ => false
  end.

(** The client under [clientId] is the one a lookup by [clientName]
    reaches: it is the first in property order whose lowercased name is
    the lowercased [clientName]. *)
Definition reached_by (clientName clientId : string) (cs : Obj.t Client.t)
    : Prop :=
  ∃ before c after,
    cs = before ++ (clientId, c) :: after ∧
    Js.toLowerCase (Client.name c) = Js.toLowerCase clientName ∧
    ∀ kc, kc ∈ before →
          Js.toLowerCase (Client.name kc.2) ≠ Js.toLowerCase clientName.


(** [k] names a property that the object [client.projects] inherits: a
    member of [Object.prototype], or a field of the project record that
    has become its prototype. *)
Definition inherits (k : string) (c : Client.t) : bool :=
  Js.inherited k
  || match Client.projects_proto c with
     | Some proto => bool_decide (is_Some (Project.field k proto))
     | None => false
     end.

(** No client and no project is filed under the empty id. *)
Definition ids_nonempty (st : State) : Prop :=
  Obj.get "" (clients st) = None ∧
  ∀ c, c ∈ Obj.values (clients st) → Obj.get "" (Client.projects c) = None.

(** * Properties *)

(** ** Tables *)

Ltac case_eqb :=
  match goal with
  | |- context [String.eqb ?a ?b] =>
      destruct (String.eqb_spec a b); simplify_eq/=
  | H : context [String.eqb ?a ?b] |- _ =>
      destruct (String.eqb_spec a b); simplify_eq/=
  end.

Section TableFacts.
Context {V : Type}.
Implicit Types (o : Obj.t V) (k : string) (v : V).

Lemma get_None_keys k o : Obj.get k o = None ↔ k ∉ Obj.keys o.
Proof.
  unfold Obj.keys. induction o as [|[k' v'] o IH]; simpl.
  - split; [intros _; apply not_elem_of_nil | done].
  - rewrite not_elem_of_cons. case_eqb.
    + split; [done | by intros [? _]].
    + rewrite IH. split; [by split | by intros [_ ?]].
Qed.

Lemma get_Some_keys k o : is_Some (Obj.get k o) ↔ k ∈ Obj.keys o.
Proof.
  rewrite <-not_eq_None_Some, get_None_keys.
  destruct (decide (k ∈ Obj.keys o)); naive_solver.
Qed.

Lemma get_Some_elem k v o : Obj.get k o = Some v → (k, v) ∈ o.
Proof.
  induction o as [|[k' v'] o IH]; simpl; [done|].
  case_eqb; intros; simplify_eq; [left | right; auto].
Qed.

Lemma get_Some_values k v o : Obj.get k o = Some v → v ∈ Obj.values o.
Proof.
  intros H%get_Some_elem. unfold Obj.values.
  apply list_elem_of_fmap. by exists (k, v).
Qed.

Lemma keys_update k f o : Obj.keys (Obj.update k f o) = Obj.keys o.
Proof.
  unfold Obj.keys. induction o as [|[k' v'] o IH]; simpl; [done|].
  case_eqb; simpl; [done | by rewrite IH].
Qed.

Lemma length_update k f o : length (Obj.update k f o) = length o.
Proof.
  induction o as [|[k' v'] o IH]; simpl; [done|].
  case_eqb; simpl; [done | by rewrite IH].
Qed.

Lemma get_update_eq k f o : Obj.get k (Obj.update k f o) = f <$> Obj.get k o.
Proof.
  induction o as [|[k' v'] o IH]; simpl; [done|].
  case_eqb; simpl.
  - by rewrite String.eqb_refl.
  - by apply String.eqb_neq in n as ->.
Qed.

Lemma get_update_ne k k' f o :
  k ≠ k' → Obj.get k' (Obj.update k f o) = Obj.get k' o.
Proof.
  intros Hne. induction o as [|[k0 v0] o IH]; simpl; [done|].
  case_eqb; simpl.
  - by apply String.eqb_neq in Hne as ->.
  - by rewrite IH.
Qed.

Lemma values_update k f o x :
  x ∈ Obj.values (Obj.update k f o) →
  x ∈ Obj.values o ∨ ∃ v, Obj.get k o = Some v ∧ x = f v.
Proof.
  unfold Obj.values. induction o as [|[k' v'] o IH]; simpl; [auto|].
  case_eqb; simpl; rewrite !elem_of_cons.
  - intros [->|?]; [right; by exists v' | by left; right].
  - intros [->|H]; [by left; left|].
    destruct (IH H) as [?|?]; [by left; right | by right].
Qed.

Lemma keys_insert_index n k v o :
  Obj.keys (Obj.insert_index n k v o) ≡ₚ k :: Obj.keys o.
Proof.
  unfold Obj.keys. induction o as [|[k' v'] o IH]; simpl; [done|].
  destruct (Obj.array_index k'); [|done].
  destruct (_ <? _)%N; simpl; [|done].
  rewrite IH. apply Permutation_swap.
Qed.

Lemma get_insert_index_eq n k v o :
  Obj.get k o = None → Obj.get k (Obj.insert_index n k v o) = Some v.
Proof.
  induction o as [|[k' v'] o IH]; simpl.
  - by rewrite String.eqb_refl.
  - case_eqb; [done|]. intros Hg.
    destruct (Obj.array_index k'); [destruct (_ <? _)%N|]; simpl;
      rewrite ?String.eqb_refl; try done.
    apply String.eqb_neq in n0 as ->. auto.
Qed.

Lemma get_insert_index_ne n k k' v o :
  k ≠ k' → Obj.get k' (Obj.insert_index n k v o) = Obj.get k' o.
Proof.
  intros Hne. apply String.eqb_neq in Hne.
  induction o as [|[k0 v0] o IH]; simpl.
  - by rewrite Hne.
  - destruct (Obj.array_index k0); [destruct (_ <? _)%N|]; simpl;
      rewrite ?Hne, ?IH; done.
Qed.

Lemma get_app k o1 o2 :
  Obj.get k (o1 ++ o2) =
  match Obj.get k o1 with Some v => Some v | None => Obj.get k o2 end.
Proof.
  induction o1 as [|[k' v'] o1 IH]; simpl; [done|].
  by destruct (String.eqb k' k).
Qed.

Lemma keys_set_None k v o :
  Obj.get k o = None → Obj.keys (Obj.set k v o) ≡ₚ k :: Obj.keys o.
Proof.
  intros Hg. unfold Obj.set. rewrite Hg.
  destruct (Obj.array_index k); [apply keys_insert_index|].
  unfold Obj.keys. rewrite fmap_app. simpl.
  by rewrite <-Permutation_cons_append.
Qed.

Lemma keys_set_Some k v o :
  is_Some (Obj.get k o) → Obj.keys (Obj.set k v o) = Obj.keys o.
Proof.
  intros [x Hg]. unfold Obj.set. rewrite Hg. apply keys_update.
Qed.

Lemma get_set_eq k v o : Obj.get k (Obj.set k v o) = Some v.
Proof.
  unfold Obj.set. destruct (Obj.get k o) eqn:Hg.
  - by rewrite get_update_eq, Hg.
  - destruct (Obj.array_index k); [by apply get_insert_index_eq|].
    rewrite get_app, Hg. simpl. by rewrite String.eqb_refl.
Qed.

Lemma get_set_ne k k' v o :
  k ≠ k' → Obj.get k' (Obj.set k v o) = Obj.get k' o.
Proof.
  intros Hne. unfold Obj.set. destruct (Obj.get k o) eqn:Hg.
  - by apply get_update_ne.
  - destruct (Obj.array_index k); [by apply get_insert_index_ne|].
    rewrite get_app. simpl. apply String.eqb_neq in Hne as ->.
    by destruct (Obj.get k' o).
Qed.

Lemma length_set_None k v o :
  Obj.get k o = None → length (Obj.set k v o) = S (length o).
Proof.
  intros Hg. pose proof (keys_set_None k v o Hg) as Hp.
  apply Permutation_length in Hp. unfold Obj.keys in Hp. simpl in Hp.
  by rewrite !length_fmap in Hp.
Qed.

Lemma wf_set k v o : Obj.wf o → Obj.wf (Obj.set k v o).
Proof.
  unfold Obj.wf. intros Hwf. destruct (Obj.get k o) eqn:Hg.
  - by rewrite keys_set_Some.
  - rewrite keys_set_None by done. apply NoDup_cons.
    split; [by apply get_None_keys | done].
Qed.

Lemma wf_update k f o : Obj.wf o → Obj.wf (Obj.update k f o).
Proof. unfold Obj.wf. by rewrite keys_update. Qed.

Lemma keys_remove k o :
  Obj.keys (Obj.remove k o) = filter (λ k', k' ≠ k) (Obj.keys o).
Proof.
  unfold Obj.keys. induction o as [|[k' v'] o IH]; simpl; [done|].
  case_eqb.
  - rewrite filter_cons_False by naive_solver. done.
  - rewrite filter_cons_True by done. simpl. by rewrite IH.
Qed.

Lemma get_remove_eq k o : Obj.get k (Obj.remove k o) = None.
Proof.
  apply get_None_keys. rewrite keys_remove, list_elem_of_filter.
  by intros [? _].
Qed.

Lemma get_remove_ne k k' o :
  k ≠ k' → Obj.get k' (Obj.remove k o) = Obj.get k' o.
Proof.
  intros Hne. induction o as [|[k0 v0] o IH]; simpl; [done|].
  case_eqb; simpl.
  - by apply String.eqb_neq in Hne as ->.
  - by rewrite IH.
Qed.

Lemma wf_remove k o : Obj.wf o → Obj.wf (Obj.remove k o).
Proof. unfold Obj.wf. rewrite keys_remove. apply NoDup_filter. Qed.

Lemma remove_absent k o : Obj.get k o = None → Obj.remove k o = o.
Proof.
  induction o as [|[k' v'] o IH]; simpl; [done|].
  case_eqb; [done|]. intros Hg. by rewrite IH.
Qed.

Lemma length_remove k o :
  Obj.wf o → is_Some (Obj.get k o) →
  S (length (Obj.remove k o)) = length o.
Proof.
  unfold Obj.wf, Obj.keys.
  induction o as [|[k' v'] o IH]; simpl; intros Hwf [x Hg]; [done|].
  apply NoDup_cons in Hwf as [Hk' Hwf]. case_eqb.
  - rewrite remove_absent; [done|]. by apply get_None_keys.
  - simpl. rewrite IH; eauto.
Qed.

Lemma values_remove k o x :
  x ∈ Obj.values (Obj.remove k o) → x ∈ Obj.values o.
Proof.
  unfold Obj.values. induction o as [|[k' v'] o IH]; simpl; [done|].
  case_eqb; simpl; rewrite !elem_of_cons; intuition.
Qed.

Lemma values_set k v o x :
  x ∈ Obj.values (Obj.set k v o) → x = v ∨ x ∈ Obj.values o.
Proof.
  unfold Obj.set. destruct (Obj.get k o) eqn:Hg.
  - intros [H | (w & _ & ->)]%values_update; auto.
  - unfold Obj.values.
    destruct (Obj.array_index k) as [n|].
    + clear Hg. induction o as [|[k' v'] o IH]; simpl.
      * rewrite list_elem_of_singleton. auto.
      * destruct (Obj.array_index k'); [destruct (_ <? _)%N|]; simpl;
          rewrite !elem_of_cons; intuition.
    + rewrite fmap_app, elem_of_app. simpl.
      rewrite list_elem_of_singleton. intuition.
Qed.

End TableFacts.

(** ** The upload validator *)

Lemma endsWith_spec s suffix :
  Js.endsWith s suffix = true ↔ ∃ stem, s = stem +:+ suffix.
Proof.
  induction s as [|c s IH].
  - destruct suffix as [|a suffix]; simpl.
    + split; [by exists "" | done].
    + split; [done|]. intros [[|c stem] Heq]; simpl in Heq; by simplify_eq.
  - change (Js.endsWith (String c s) suffix)
      with (if String.eqb (String c s) suffix then true
            else Js.endsWith s suffix).
    destruct (String.eqb_spec (String c s) suffix) as [<-|Hne].
    + split; [by exists "" | done].
    + rewrite IH. split.
      * intros [stem ->]. by exists (String c stem).
      * intros [[|c' stem] Heq]; [done|].
        change (String c s = String c' (stem +:+ suffix)) in Heq.
        simplify_eq. by exists stem.
Qed.

Lemma fileFilter_cases file :
  (glb_file file ∧ fileFilter file = (None, true)) ∨
  (¬ glb_file file ∧
   fileFilter file = (Some "Only .glb files are allowed", false)).
Proof.
  unfold fileFilter, glb_file.
  destruct (String.eqb_spec (File.mimetype file) "model/gltf-binary")
    as [Hm|Hm]; simpl; [by left; split; [left|] |].
  destruct (Js.endsWith _ _) eqn:He.
  - left. split; [right; by apply endsWith_spec | done].
  - right. split; [|done]. intros [?|Hs%endsWith_spec]; congruence.
Qed.

(** C4.  The upload validator accepts a file descriptor exactly when its
    declared MIME type is [model/gltf-binary] or its original name ends in
    [.glb]; every other descriptor is rejected with the error
    [Only .glb files are allowed], and the request then ends with that
    error while the disk (and the table) are as before: nothing was
    stored. *)
Theorem fileFilter_accepts_exactly_glb (file : File.t) :
  (fileFilter file = (None, true) ↔ glb_file file) ∧
  (fileFilter file = (Some "Only .glb files are allowed", false)
     ↔ ¬ glb_file file) ∧
  ∀ now today clientId projectId description st,
    ¬ glb_file file →
    post_admin_upload now today (Some file) clientId projectId description st
    = (NextError "Only .glb files are allowed", st).
Proof.
  destruct (fileFilter_cases file) as [[Hg Hf]|[Hg Hf]]; rewrite ?Hf.
  - split_and!; [done | split; [done | by intros []] | by intros].
  - split_and!; [split; [done | by intros ?] | done |].
    intros now today cid pid descr [cs d] _.
    unfold post_admin_upload, upload_single. by rewrite Hf.
Qed.

(** ** Reads of the tables *)

Lemma read_client_own k cs c :
  Obj.get k cs = Some c → read_client k cs = Js.Entry c.
Proof. unfold read_client. by intros ->. Qed.

Lemma read_client_absent k cs :
  Obj.get k cs = None → Js.inherited k = false →
  read_client k cs = Js.Undefined.
Proof. unfold read_client. by intros -> ->. Qed.

Lemma read_client_inherited k cs :
  Obj.get k cs = None → Js.inherited k = true →
  read_client k cs = Js.Builtin.
Proof. unfold read_client. by intros -> ->. Qed.

Lemma read_client_Entry k cs c :
  read_client k cs = Js.Entry c ↔ Obj.get k cs = Some c.
Proof.
  unfold read_client. destruct (Obj.get k cs); [|by destruct (Js.inherited k)].
  split; by intros [= ->].
Qed.

Lemma read_client_truthy k cs :
  Js.truthy (read_client k cs) = true ↔
  is_Some (Obj.get k cs) ∨ Js.inherited k = true.
Proof.
  unfold read_client. destruct (Obj.get k cs); simpl; [by split; eauto|].
  destruct (Js.inherited k); simpl; split; try done; auto.
  by intros [[]|].
Qed.

Lemma read_project_own k c p :
  Obj.get k (Client.projects c) = Some p →
  Client.read_project k c = Js.Entry p.
Proof. unfold Client.read_project. by intros ->. Qed.

Lemma inherited_proto : Js.inherited "__proto__" = true.
Proof. reflexivity. Qed.

Lemma inherits_false k c :
  inherits k c = false →
  Js.inherited k = false ∧ k ≠ "__proto__" ∧
  ∀ proto, Client.projects_proto c = Some proto →
           Project.field k proto = None.
Proof.
  unfold inherits. intros [Hk Hp]%orb_false_iff. split_and!; [done | |].
  - intros ->. by rewrite inherited_proto in Hk.
  - intros proto Hproto. rewrite Hproto in Hp.
    apply bool_decide_eq_false in Hp. by apply eq_None_not_Some.
Qed.

(** A key that names nothing inherited reads an own property or
    [undefined]. *)
Lemma read_project_plain k c :
  inherits k c = false →
  Client.read_project k c
  = match Obj.get k (Client.projects c) with
    | Some p => Js.Entry p
    | None => Js.Undefined
    end.
Proof.
  intros (Hk & Hne & Hp)%inherits_false. unfold Client.read_project.
  destruct (Obj.get k (Client.projects c)); [done|].
  destruct (Client.projects_proto c) as [proto|]; [|by rewrite Hk].
  rewrite (Hp proto eq_refl), Hk. by apply String.eqb_neq in Hne as ->.
Qed.

(** A project read under a key other than [__proto__] is an own
    property. *)
Lemma read_project_Entry k c p :
  k ≠ "__proto__" →
  Client.read_project k c = Js.Entry p →
  Obj.get k (Client.projects c) = Some p.
Proof.
  intros Hne. unfold Client.read_project.
  destruct (Obj.get k (Client.projects c)); [by intros [= ->]|].
  apply String.eqb_neq in Hne.
  destruct (Client.projects_proto c) as [proto|];
    [destruct (Project.field k proto)|]; rewrite ?Hne;
    by destruct (Js.inherited k).
Qed.

(** ** The not-found answers of the two delete routes *)

(** C8, where the code departs from it.  A client id that names a member
    of [Object.prototype] (such as [constructor]) and no client of the
    table is not answered as a client that is not found: the client delete
    answers status 500 with [Failed to move client projects to backup], and
    the project delete raises before it answers; neither changes the
    state. *)
Theorem delete_inherited_client_id (clientId projectId : string)
    (st : State) :
  Obj.get clientId (clients st) = None →
  Js.inherited clientId = true →
  delete_admin_client clientId st
    = (Respond 500 (ErrorBody "Failed to move client projects to backup"),
       st) ∧
  delete_admin_project clientId projectId st = (TypeError, st).
Proof.
  intros Hg Hinh. unfold delete_admin_client, delete_admin_project.
  by rewrite (read_client_inherited _ _ Hg Hinh).
Qed.

Lemma delete_inherited_client_id_witness :
  Obj.get "constructor" (clients state_init) = None ∧
  delete_admin_client "constructor" state_init
    = (Respond 500 (ErrorBody "Failed to move client projects to backup"),
       state_init) ∧
  delete_admin_project "constructor" "highway001" state_init
    = (TypeError, state_init).
Proof.
  split; [reflexivity|].
  apply (delete_inherited_client_id "constructor" "highway001" state_init);
    reflexivity.
Defined.

(** X22.  Deleting a client whose id is not in the table, and names no
    member of [Object.prototype], answers status 400 with
    [error: Client not found]; deleting a project under such a client id
    answers status 404; the two statuses differ, and neither route changes
    the state. *)
Theorem delete_absent_client_statuses (clientId projectId : string)
    (st : State) :
  Obj.get clientId (clients st) = None →
  Js.inherited clientId = false →
  delete_admin_client clientId st
    = (Respond 400 (ErrorBody "Client not found"), st) ∧
  delete_admin_project clientId projectId st
    = (Respond 404 (ErrorBody "Client not found"), st) ∧
  400 ≠ 404.
Proof.
  intros Hg Hinh. unfold delete_admin_client, delete_admin_project.
  by rewrite (read_client_absent _ _ Hg Hinh).
Qed.

Lemma delete_absent_client_statuses_witness :
  Obj.get "acme-co" (clients state_init) = None ∧
  delete_admin_client "acme-co" state_init
    = (Respond 400 (ErrorBody "Client not found"), state_init) ∧
  delete_admin_project "acme-co" "p1" state_init
    = (Respond 404 (ErrorBody "Client not found"), state_init) ∧
  400 ≠ 404.
Proof.
  split; [reflexivity|].
  apply (delete_absent_client_statuses "acme-co" "p1" state_init);
    reflexivity.
Defined.

(** ** The initial table *)

(** C10.  At process start the table holds exactly one client, with id
    [highway-projects] and display name [Highway Projects Inc.], owning
    exactly the project [highway001]; the client list of the initial state
    is that one client with project count 1, and the lookup by the name
    [highway projects inc.] finds it. *)
Theorem initial_registry_seeded (d : Fs.t) :
  Obj.keys clients_init = ["highway-projects"] ∧
  (∃ c,
     Obj.get "highway-projects" clients_init = Some c ∧
     Client.name c = "Highway Projects Inc." ∧
     Obj.keys (Client.projects c) = ["highway001"] ∧
     get_admin_clients (mkState clients_init d)
       = Respond 200
           (ClientsBody
              [ClientView.mk "highway-projects" "Highway Projects Inc."
                 (Client.contact c) (Client.projects c) 1]) ∧
     findClientByName "highway projects inc." clients_init = Some c) ∧
  (run [] (mkState clients_init d)).2 = mkState clients_init d.
Proof.
  split_and!; [done | | done].
  eexists. split_and!; reflexivity.
Qed.

(** ** Every table of a running process has distinct keys *)

Lemma wf_state_intro cs d :
  Obj.wf cs →
  (∀ c, c ∈ Obj.values cs → Obj.wf (Client.projects c)) →
  wf_state (mkState cs d).
Proof. intros Hcs Hps. split; [done | by apply Forall_forall]. Qed.

Lemma wf_state_projects st c :
  wf_state st → c ∈ Obj.values (clients st) → Obj.wf (Client.projects c).
Proof. intros [_ Hps] Hc. rewrite Forall_forall in Hps. auto. Qed.

Lemma wf_nil {V} : Obj.wf (@nil (string * V)).
Proof. apply NoDup_nil_2. Qed.

Lemma ensure_client_wf cid cs :
  Obj.wf cs → (∀ c, c ∈ Obj.values cs → Obj.wf (Client.projects c)) →
  Obj.wf (ensure_client cid cs) ∧
  ∀ c, c ∈ Obj.values (ensure_client cid cs) → Obj.wf (Client.projects c).
Proof.
  intros Hcs Hps. unfold ensure_client.
  destruct (Js.truthy _); [done|]. split; [by apply wf_set|].
  intros c [->|Hc]%values_set; [apply wf_nil | auto].
Qed.

Lemma assign_project_wf k p c :
  Obj.wf (Client.projects c) →
  Obj.wf (Client.projects (Client.assign_project k p c)).
Proof.
  intros Hwf. unfold Client.assign_project.
  destruct (Obj.get k (Client.projects c)); [by apply wf_set|].
  destruct (String.eqb k "__proto__"); [done | by apply wf_set].
Qed.

Lemma post_admin_upload_wf now today file clientId projectId description st :
  wf_state st →
  wf_state (post_admin_upload now today file clientId projectId
              description st).2.
Proof.
  intros Hwf. pose proof Hwf as [Hcs _]. unfold post_admin_upload.
  destruct (upload_single now file (disk st)) as [[err|[stored|]] d];
    simpl; try by apply wf_state_intro; eauto using wf_state_projects.
  destruct (_ || _); simpl;
    [by apply wf_state_intro; eauto using wf_state_projects|].
  set (cid := default "" clientId).
  destruct (ensure_client_wf cid (clients st) Hcs) as [Hcs' Hps'];
    [eauto using wf_state_projects|].
  destruct (read_client cid (ensure_client cid (clients st)))
    as [c0|t0| |]; simpl; try by apply wf_state_intro.
  apply wf_state_intro; [by apply wf_update|].
  intros c [Hc|(v & Hv & ->)]%values_update; [auto|].
  apply assign_project_wf, Hps'. by eapply get_Some_values.
Qed.

Lemma post_admin_client_wf name contact st :
  wf_state st → wf_state (post_admin_client name contact st).2.
Proof.
  intros Hwf. pose proof Hwf as [Hcs _]. unfold post_admin_client.
  destruct (Js.falsy name); [done|].
  destruct (Js.truthy _); [done|]. simpl.
  apply wf_state_intro; [by apply wf_set|].
  intros c [->|Hc]%values_set; [apply wf_nil|].
  eauto using wf_state_projects.
Qed.

Lemma delete_admin_project_wf clientId projectId st :
  wf_state st → wf_state (delete_admin_project clientId projectId st).2.
Proof.
  intros Hwf. pose proof Hwf as [Hcs _]. unfold delete_admin_project.
  destruct (Js.truthy (read_client clientId (clients st))); [|done].
  simpl. destruct (read_client clientId (clients st)) as [client| | |];
    try done.
  destruct (Js.truthy (Client.read_project projectId client)); [|done].
  simpl. destruct (Client.read_project projectId client) as [project| | |];
    try done.
  destruct (move_to_backup _ _) as [d|]; [|done]. simpl.
  apply wf_state_intro; [by apply wf_update|].
  intros c [Hc|(v & Hv & ->)]%values_update;
    [eauto using wf_state_projects|].
  simpl. apply wf_remove. eapply wf_state_projects; [done|].
  by eapply get_Some_values.
Qed.

Lemma delete_admin_client_wf clientId st :
  wf_state st → wf_state (delete_admin_client clientId st).2.
Proof.
  intros Hwf. pose proof Hwf as [Hcs _]. unfold delete_admin_client.
  destruct (Js.truthy (read_client clientId (clients st))); [|done].
  simpl. destruct (read_client clientId (clients st)) as [client| | |];
    try done.
  destruct (move_all _ _) as [d|d]; simpl.
  - apply wf_state_intro; eauto using wf_state_projects.
  - apply wf_state_intro; [by apply wf_remove|].
    intros c Hc%values_remove. eauto using wf_state_projects.
Qed.

Lemma handle_wf r st : wf_state st → wf_state (handle r st).2.
Proof.
  destruct r; simpl;
    auto using post_admin_upload_wf, post_admin_client_wf,
      delete_admin_project_wf, delete_admin_client_wf.
Qed.

Lemma run_wf rs st : wf_state st → wf_state (run rs st).2.
Proof.
  revert st. induction rs as [|r rs IH]; intros st Hwf; simpl; [done|].
  pose proof (handle_wf r st Hwf) as Hwf'.
  destruct (handle r st) as [o st1]. specialize (IH st1 Hwf').
  by destruct (run rs st1).
Qed.

Lemma wf_clients_init : Obj.wf clients_init ∧
  ∀ c, c ∈ Obj.values clients_init → Obj.wf (Client.projects c).
Proof.
  split.
  - unfold Obj.wf. simpl. apply NoDup_singleton.
  - intros c ->%list_elem_of_singleton. unfold Obj.wf. simpl.
    apply NoDup_singleton.
Qed.

(** The states of a process are well formed. *)
Lemma reachable_wf st : reachable st → wf_state st.
Proof.
  intros (d & rs & ->). apply run_wf, wf_state_intro; apply wf_clients_init.
Qed.

(** ** Moving files to the backup directory *)

Lemma move_to_backup_absent f d :
  f ∉ Fs.uploadDir d → move_to_backup f d = Some d.
Proof.
  intros Hf. unfold move_to_backup, Fs.existsSync.
  by rewrite bool_decide_eq_false_2.
Qed.

Lemma move_to_backup_moves f d :
  f ∈ Fs.uploadDir d → f ∉ Fs.rename_raises d →
  move_to_backup f d
  = Some (Fs.mk (Fs.uploadDir d ∖ {[f]}) ({[f]} ∪ Fs.backupDir d)
            (Fs.rename_raises d)).
Proof.
  intros Hf Hr. unfold move_to_backup, Fs.existsSync, Fs.renameSync.
  by rewrite !bool_decide_eq_true_2.
Qed.

Lemma move_to_backup_raises f d :
  f ∈ Fs.uploadDir d → f ∈ Fs.rename_raises d → move_to_backup f d = None.
Proof.
  intros Hf Hr. unfold move_to_backup, Fs.existsSync, Fs.renameSync.
  rewrite bool_decide_eq_true_2 by done.
  rewrite (bool_decide_eq_false_2 (f ∉ _)); [done | by intros ?].
Qed.

(** ** Deleting a project *)

Lemma delete_admin_project_moved clientId projectId st client project d :
  Obj.get clientId (clients st) = Some client →
  Obj.get projectId (Client.projects client) = Some project →
  move_to_backup (Project.filename project) (disk st) = Some d →
  delete_admin_project clientId projectId st
  = (Respond 200
       (ProjectDeletedBody
          ("Project " +:+ projectId +:+ " moved to backup successfully")
          (length (Obj.keys (Obj.remove projectId (Client.projects client))))),
     mkState (Obj.update clientId (without_project projectId) (clients st)) d).
Proof.
  intros Hc Hp Hm. unfold delete_admin_project.
  rewrite (read_client_own _ _ _ Hc). simpl.
  rewrite (read_project_own _ _ _ Hp). simpl. by rewrite Hm.
Qed.

Lemma delete_admin_project_failed clientId projectId st client project :
  Obj.get clientId (clients st) = Some client →
  Obj.get projectId (Client.projects client) = Some project →
  move_to_backup (Project.filename project) (disk st) = None →
  delete_admin_project clientId projectId st
  = (Respond 500 (ErrorBody "Failed to move project to backup"), st).
Proof.
  intros Hc Hp Hm. unfold delete_admin_project.
  rewrite (read_client_own _ _ _ Hc). simpl.
  rewrite (read_project_own _ _ _ Hp). simpl. by rewrite Hm.
Qed.

(** A project delete answers status 200 only when the client id reads a
    client of the table, the project id reads a project, and the move did
    not raise. *)
Lemma delete_admin_project_200 clientId projectId st body st' :
  delete_admin_project clientId projectId st = (Respond 200 body, st') →
  ∃ client project d,
    Obj.get clientId (clients st) = Some client ∧
    Client.read_project projectId client = Js.Entry project ∧
    move_to_backup (Project.filename project) (disk st) = Some d ∧
    body = ProjectDeletedBody
             ("Project " +:+ projectId +:+ " moved to backup successfully")
             (length (Obj.keys (Obj.remove projectId
                                  (Client.projects client)))) ∧
    st' = mkState
            (Obj.update clientId (without_project projectId) (clients st)) d.
Proof.
  unfold delete_admin_project.
  destruct (Js.truthy (read_client clientId (clients st))); [|done].
  simpl.
  destruct (read_client clientId (clients st)) as [client| | |] eqn:Hc;
    try done.
  apply read_client_Entry in Hc.
  destruct (Js.truthy (Client.read_project projectId client)); [|done].
  simpl.
  destruct (Client.read_project projectId client) as [project| | |] eqn:Hp;
    try done.
  destruct (move_to_backup _ _) as [d|] eqn:Hm; [|done].
  intros [= <- <-]. by exists client, project, d.
Qed.

Lemma length_keys {V} (o : Obj.t V) : length (Obj.keys o) = length o.
Proof. unfold Obj.keys. apply length_fmap. Qed.

(** X23.  A successful delete (status 200) of a project under an id other
    than [__proto__] lowers the project count of the owning client by
    exactly one, removes the named project and no other project of that
    client, leaves every other client as it was, and returns the number of
    projects the client still owns. *)
Theorem delete_project_frame (clientId projectId : string) (st st' : State)
    (body : Body) :
  wf_state st →
  projectId ≠ "__proto__" →
  delete_admin_project clientId projectId st = (Respond 200 body, st') →
  ∃ client client',
    Obj.get clientId (clients st) = Some client ∧
    Obj.get clientId (clients st') = Some client' ∧
    is_Some (Obj.get projectId (Client.projects client)) ∧
    Obj.get projectId (Client.projects client') = None ∧
    S (projectCount clientId (clients st'))
      = projectCount clientId (clients st) ∧
    body = ProjectDeletedBody
             ("Project " +:+ projectId +:+ " moved to backup successfully")
             (projectCount clientId (clients st')) ∧
    (∀ p, p ≠ projectId →
       Obj.get p (Client.projects client')
       = Obj.get p (Client.projects client)) ∧
    Client.name client' = Client.name client ∧
    Client.contact client' = Client.contact client ∧
    (∀ c, c ≠ clientId →
       Obj.get c (clients st') = Obj.get c (clients st)) ∧
    Obj.keys (clients st') = Obj.keys (clients st).
Proof.
  intros [Hwf Hwfp] Hne Hdel.
  destruct (delete_admin_project_200 _ _ _ _ _ Hdel)
    as (client & project & d & Hc & Hp & Hm & -> & ->).
  apply (read_project_Entry _ _ _ Hne) in Hp. simpl.
  exists client, (without_project projectId client).
  assert (Obj.wf (Client.projects client)) as Hwfc.
  { rewrite Forall_forall in Hwfp. eapply Hwfp, get_Some_values, Hc. }
  unfold projectCount. rewrite get_update_eq, Hc. simpl.
  split_and!; try done.
  - apply get_remove_eq.
  - rewrite !length_keys. apply length_remove; [done | by eexists].
  - intros p Hp'. by apply get_remove_ne.
  - intros c Hc'. by apply get_update_ne.
  - apply keys_update.
Qed.

Lemma wf_state_init : wf_state state_init.
Proof.
  split; [|repeat constructor]; unfold Obj.wf; simpl;
    repeat constructor; apply not_elem_of_nil.
Qed.

Lemma delete_project_frame_witness :
  let st' :=
    mkState
      [("highway-projects",
        Client.mk "Highway Projects Inc." "john@highwayproj.com" [] None)]
      (Fs.mk ∅ ∅ ∅) in
  wf_state state_init ∧
  "highway001" ≠ "__proto__" ∧
  delete_admin_project "highway-projects" "highway001" state_init
    = (Respond 200
         (ProjectDeletedBody
            "Project highway001 moved to backup successfully" 0), st') ∧
  S (projectCount "highway-projects" (clients st'))
    = projectCount "highway-projects" (clients state_init).
Proof.
  intros st'.
  assert (delete_admin_project "highway-projects" "highway001" state_init
          = (Respond 200
               (ProjectDeletedBody
                  "Project highway001 moved to backup successfully" 0), st'))
    as Hdel by reflexivity.
  assert ("highway001" ≠ "__proto__") as Hne by done.
  split_and!; [apply wf_state_init | exact Hne | exact Hdel |].
  destruct (delete_project_frame _ _ _ _ _ wf_state_init Hne Hdel)
    as (client & client' & _ & _ & _ & _ & Hcount & _).
  exact Hcount.
Defined.

(** C2, as stated, fails: when [renameSync] raises, the route answers
    status 500 and the project is still in the table. *)
Lemma delete_blocked_by_failed_move :
  delete_admin_project "highway-projects" "highway001" state_locked
    = (Respond 500 (ErrorBody "Failed to move project to backup"),
       state_locked) ∧
  has_project "highway-projects" "highway001" (clients state_locked) ∧
  ¬ spec_delete_never_blocked_by_move.
Proof.
  assert (has_project "highway-projects" "highway001" (clients state_locked))
    as Hhas.
  { eexists. split; [reflexivity | by eexists]. }
  assert (delete_admin_project "highway-projects" "highway001" state_locked
          = (Respond 500 (ErrorBody "Failed to move project to backup"),
             state_locked)) as Hdel.
  { eapply delete_admin_project_failed; [reflexivity | reflexivity |].
    apply move_to_backup_raises; simpl; by apply elem_of_singleton. }
  split_and!; [done | done |].
  intros Hspec. apply (Hspec _ _ _ Hhas). by rewrite Hdel.
Qed.

(** C2, amended.  For a delete whose client and project keys are present:
    when the file is not in the upload directory no move happens and the
    entry is removed all the same (status 200, disk untouched); when the
    file is there and the move succeeds the entry is removed and the file
    is in the backup directory; when the move itself raises, the route
    answers status 500 and the state, the entry included, is as before. *)
Theorem delete_project_relocation (clientId projectId : string) (st : State)
    (client : Client.t) (project : Project.t) :
  Obj.get clientId (clients st) = Some client →
  Obj.get projectId (Client.projects client) = Some project →
  let f := Project.filename project in
  let out := delete_admin_project clientId projectId st in
  (f ∉ Fs.uploadDir (disk st) →
     (∃ body, fst out = Respond 200 body) ∧
     disk (snd out) = disk st ∧
     ¬ has_project clientId projectId (clients (snd out))) ∧
  (f ∈ Fs.uploadDir (disk st) → f ∉ Fs.rename_raises (disk st) →
     (∃ body, fst out = Respond 200 body) ∧
     (f ∉ Fs.uploadDir (disk (snd out))) ∧
     (f ∈ Fs.backupDir (disk (snd out))) ∧
     ¬ has_project clientId projectId (clients (snd out))) ∧
  (f ∈ Fs.uploadDir (disk st) → f ∈ Fs.rename_raises (disk st) →
     out = (Respond 500 (ErrorBody "Failed to move project to backup"), st) ∧
     has_project clientId projectId (clients (snd out))).
Proof.
  intros Hc Hp f out.
  assert (¬ has_project clientId projectId
            (Obj.update clientId (without_project projectId) (clients st)))
    as Hgone.
  { intros (c & Hc' & Hp'). rewrite get_update_eq, Hc in Hc'.
    simpl in Hc'. simplify_eq. simpl in Hp'.
    rewrite get_remove_eq in Hp'. by destruct Hp'. }
  split_and!.
  - intros Hf. subst out.
    rewrite (delete_admin_project_moved _ _ _ _ _ _ Hc Hp
               (move_to_backup_absent _ _ Hf)). simpl.
    split_and!; [by eexists | done | by apply Hgone].
  - intros Hf Hr. subst out.
    rewrite (delete_admin_project_moved _ _ _ _ _ _ Hc Hp
               (move_to_backup_moves _ _ Hf Hr)). simpl.
    split_and!; [by eexists | | | by apply Hgone].
    + rewrite elem_of_difference, elem_of_singleton. by intros [_ ?].
    + by apply elem_of_union_l, elem_of_singleton.
  - intros Hf Hr. subst out.
    rewrite (delete_admin_project_failed _ _ _ _ _ Hc Hp
               (move_to_backup_raises _ _ Hf Hr)). simpl.
    split; [done|]. exists client. split; [done | by eexists].
Qed.

Lemma delete_project_relocation_witness :
  Obj.get "highway-projects" (clients state_init)
    = Some (Client.mk "Highway Projects Inc." "john@highwayproj.com"
              [("highway001",
                Project.mk "1758121257346-4650_highway_a1a_revised_7.24.glb"
                           "A1A Highway Revision 7.24" "2024-01-15")]
              None) ∧
  ¬ has_project "highway-projects" "highway001"
      (clients (delete_admin_project "highway-projects" "highway001"
                  state_init).2).
Proof.
  split; [reflexivity|].
  refine (proj2 (proj2 (proj1
    (delete_project_relocation "highway-projects" "highway001" state_init
       _ (Project.mk "1758121257346-4650_highway_a1a_revised_7.24.glb"
                     "A1A Highway Revision 7.24" "2024-01-15")
       eq_refl eq_refl) _))).
  simpl. apply not_elem_of_empty.
Defined.

(** ** Uploads *)

Lemma upload_single_accepted now file d :
  accepted_file file →
  upload_single now (Some file) d
  = (inr (Some (storage_filename now file)),
     Fs.write (storage_filename now file) d).
Proof.
  intros [Hg Hs]. unfold upload_single.
  destruct (fileFilter_cases file) as [[_ ->]|[? _]]; [|done].
  by apply N.ltb_ge in Hs as ->.
Qed.

Lemma falsy_false v : Js.falsy v = false ↔ ∃ s, v = Some s ∧ s ≠ "".
Proof.
  destruct v as [s|]; simpl.
  - rewrite String.eqb_neq. split; [by exists s | by intros (? & [= ->] & ?)].
  - split; [done | by intros (? & ? & _)].
Qed.

(** C9.  An upload whose file passes the validator (filter and size limit)
    but whose client id or project id is missing or empty answers status
    400 with [Client ID and Project ID are required]; the table is as
    before, yet the file has been written to the upload directory under its
    stored name: a file no project of the table refers to, unless one did
    already. *)
Theorem upload_without_ids_leaves_file (now : N) (today : string)
    (file : File.t) (clientId projectId description : option string)
    (st : State) :
  accepted_file file →
  Js.falsy clientId = true ∨ Js.falsy projectId = true →
  ∃ st',
    post_admin_upload now today (Some file) clientId projectId description st
      = (Respond 400 (ErrorBody "Client ID and Project ID are required"), st')
    ∧ clients st' = clients st
    ∧ disk st' = Fs.write (storage_filename now file) (disk st)
    ∧ storage_filename now file ∈ Fs.uploadDir (disk st')
    ∧ (¬ referenced (storage_filename now file) (clients st) →
       ¬ referenced (storage_filename now file) (clients st')).
Proof.
  intros Hacc Hmiss. eexists. unfold post_admin_upload.
  rewrite (upload_single_accepted _ _ _ Hacc).
  assert (Js.falsy clientId || Js.falsy projectId = true) as ->.
  { apply orb_true_iff. tauto. }
  split_and!; try done. simpl. by apply elem_of_union_l, elem_of_singleton.
Qed.

Lemma upload_without_ids_leaves_file_witness :
  let file := File.mk "model.glb" "model/gltf-binary" 2048 in
  accepted_file file ∧
  ∃ st',
    post_admin_upload 1758121257346 "2025-09-17" (Some file) (Some "acme-co")
      None None state_init
      = (Respond 400 (ErrorBody "Client ID and Project ID are required"), st')
    ∧ clients st' = clients state_init
    ∧ "1758121257346-model.glb" ∈ Fs.uploadDir (disk st').
Proof.
  intros file.
  assert (accepted_file file) as Hacc.
  { split; [by left | by apply N.leb_le]. }
  split; [exact Hacc|].
  destruct (upload_without_ids_leaves_file 1758121257346 "2025-09-17" file
              (Some "acme-co") None None state_init Hacc (or_intror eq_refl))
    as (st' & H1 & H2 & _ & H3 & _).
  exists st'. split_and!; [exact H1 | exact H2 | exact H3].
Defined.

(** *** The humanized client name *)

Ltac ascii_cases c := destruct c as [[|] [|] [|] [|] [|] [|] [|] [|]].

Lemma append_String c s r : String c s +:+ r = String c (s +:+ r).
Proof. reflexivity. Qed.

Lemma append_empty_l r : "" +:+ r = r.
Proof. reflexivity. Qed.

Lemma append_empty_r s : s +:+ "" = s.
Proof. induction s as [|c s IH]; [done|]. by rewrite append_String, IH. Qed.

Lemma append_assoc s1 s2 s3 : (s1 +:+ s2) +:+ s3 = s1 +:+ s2 +:+ s3.
Proof.
  induction s1 as [|c s1 IH]; [done|]. by rewrite !append_String, IH.
Qed.

Lemma map_append f s r : Js.map f (s +:+ r) = Js.map f s +:+ Js.map f r.
Proof.
  induction s as [|c s IH]; [done|].
  rewrite append_String. simpl. by rewrite IH.
Qed.

Lemma word_not_hyphen c : Js.is_word c = true → Ascii.eqb c "-" = false.
Proof. ascii_cases c; vm_compute; congruence. Qed.

Lemma replace_hyphen_word w :
  all_chars Js.is_word w = true → Js.replace_char "-" " " w = w.
Proof.
  unfold Js.replace_char. induction w as [|c w IH]; simpl; [done|].
  intros [Hc Hw]%andb_true_iff. by rewrite (word_not_hyphen c Hc), IH.
Qed.

Lemma capitalize_words_restart b rest :
  word_ends rest →
  Js.capitalize_words b rest = Js.capitalize_words false rest.
Proof. destruct rest as [|c r]; simpl; [done|]. by intros ->. Qed.

Lemma capitalize_words_inside w rest :
  all_chars Js.is_word w = true → word_ends rest →
  Js.capitalize_words true (w +:+ rest)
  = w +:+ Js.capitalize_words false rest.
Proof.
  intros Hw Hrest. induction w as [|c w IH].
  - by apply capitalize_words_restart.
  - simpl in Hw. apply andb_true_iff in Hw as [Hc Hw].
    rewrite !append_String. simpl. rewrite Hc. simpl. by rewrite IH.
Qed.

Lemma capitalize_words_word w rest :
  all_chars Js.is_word w = true → word_ends rest →
  Js.capitalize_words false (w +:+ rest)
  = capitalize w +:+ Js.capitalize_words false rest.
Proof.
  intros Hw Hrest. destruct w as [|c w]; [done|].
  simpl in Hw. apply andb_true_iff in Hw as [Hc Hw].
  rewrite append_String. simpl. rewrite Hc. simpl.
  by rewrite capitalize_words_inside.
Qed.

(** On an id made of words joined by hyphens, the display name is the
    words, each with its first letter in upper case, joined by spaces. *)
Lemma humanize_words ws :
  Forall (λ w, all_chars Js.is_word w = true) ws →
  humanize (join "-" ws) = spec_humanize ws.
Proof.
  unfold humanize, spec_humanize.
  induction 1 as [|w ws Hw Hws IH]; [done|].
  destruct ws as [|w2 ws].
  - simpl. rewrite (replace_hyphen_word w Hw), <-(append_empty_r w) at 1.
    rewrite capitalize_words_word by done. apply append_empty_r.
  - change (join "-" (w :: w2 :: ws))
      with (w +:+ String "-" (join "-" (w2 :: ws))).
    change (join " " (List.map capitalize (w :: w2 :: ws)))
      with (capitalize w +:+
            String " " (join " " (List.map capitalize (w2 :: ws)))).
    unfold Js.replace_char at 1. rewrite map_append.
    fold (Js.replace_char "-" " " w). rewrite (replace_hyphen_word w Hw).
    change (Js.map ?f (String "-" ?s))
      with (String " " (Js.replace_char "-" " " s)).
    rewrite capitalize_words_word by done.
    change (Js.capitalize_words false (String " " ?s))
      with (String " " (Js.capitalize_words false s)).
    by rewrite IH.
Qed.

Lemma hyphen_space_word c :
  Js.is_word (if Ascii.eqb c "-" then " "%char else c) = Js.is_word c.
Proof. ascii_cases c; reflexivity. Qed.

Lemma capitalize_hyphen_space b c :
  (let c' := if Ascii.eqb c "-" then " "%char else c in
   if Js.is_word c' && negb b then Js.upper_char c' else c')
  = humanize_char b c.
Proof.
  unfold humanize_char. destruct (Ascii.eqb_spec c "-") as [->|_]; [|done].
  by destruct b.
Qed.

Lemma capitalize_words_get b s i :
  String.get i (Js.capitalize_words b (Js.replace_char "-" " " s))
  = humanize_char
      match i with
      | 0 => b
      | S j => from_option Js.is_word false (String.get j s)
      end
    <$> String.get i s.
Proof.
  revert b i. induction s as [|c s IH]; intros b i; [by destruct i|].
  unfold Js.replace_char in *. simpl Js.map. simpl Js.capitalize_words.
  destruct i as [|j]; simpl.
  - f_equal. apply capitalize_hyphen_space.
  - rewrite IH, hyphen_space_word. by destruct j.
Qed.

(** On every id, the display name is the id with hyphens as spaces and the
    first character of each word in upper case. *)
Lemma humanize_at clientId i :
  String.get i (humanize clientId) = spec_humanize_at clientId i.
Proof. apply capitalize_words_get. Qed.

(** *** Linking a project *)

Lemma set_nil {V} k (v : V) : Obj.set k v [] = [(k, v)].
Proof. unfold Obj.set. simpl. by destruct (Obj.array_index k). Qed.

Lemma falsy_Some_nonempty s : s ≠ "" → Js.falsy (Some s) = false.
Proof. intros Hs. simpl. by apply String.eqb_neq. Qed.

Lemma ensure_client_own cid cs c :
  Obj.get cid cs = Some c → ensure_client cid cs = cs.
Proof.
  intros Hg. unfold ensure_client. by rewrite (read_client_own _ _ _ Hg).
Qed.

Lemma ensure_client_new cid cs :
  Obj.get cid cs = None → Js.inherited cid = false →
  ensure_client cid cs = Obj.set cid (Client.mk (humanize cid) "" [] None) cs.
Proof.
  intros Hg Hinh. unfold ensure_client.
  by rewrite (read_client_absent _ _ Hg Hinh).
Qed.

Lemma ensure_client_inherited cid cs :
  Obj.get cid cs = None → Js.inherited cid = true →
  ensure_client cid cs = cs.
Proof.
  intros Hg Hinh. unfold ensure_client.
  by rewrite (read_client_inherited _ _ Hg Hinh).
Qed.

(** The client the upload files under, when the id is in the table or
    names nothing the table inherits: the client of the table, or a new
    one. *)
Lemma ensure_client_get cid cs :
  is_Some (Obj.get cid cs) ∨ Js.inherited cid = false →
  Obj.get cid (ensure_client cid cs)
  = Some (from_option id (Client.mk (humanize cid) "" [] None)
            (Obj.get cid cs)).
Proof.
  destruct (Obj.get cid cs) as [c|] eqn:Hg; simpl.
  - intros _. by rewrite (ensure_client_own _ _ _ Hg).
  - intros [[]%is_Some_None|Hinh].
    by rewrite (ensure_client_new _ _ Hg Hinh), get_set_eq.
Qed.

(** What an accepted upload with both ids does. *)
Lemma post_admin_upload_accepted now today file cid pid description st :
  accepted_file file → cid ≠ "" → pid ≠ "" →
  let stored := storage_filename now file in
  let project :=
    Project.mk stored (Js.or_else description ("Project " +:+ pid)) today in
  let cs := ensure_client cid (clients st) in
  post_admin_upload now today (Some file) (Some cid) (Some pid) description st
  = match read_client cid cs with
    | Js.Entry _ =>
        (Respond 200
           (UploadedBody "Model uploaded and linked successfully" stored
              ("/uploads/" +:+ stored) cid pid),
         mkState (Obj.update cid (Client.assign_project pid project) cs)
           (Fs.write stored (disk st)))
    | _ =>
        (Respond 500 (ErrorBody "Failed to process upload"),
         mkState cs (Fs.write stored (disk st)))
    end.
Proof.
  intros Hacc Hc Hp. unfold post_admin_upload.
  rewrite (upload_single_accepted _ _ _ Hacc).
  by rewrite (falsy_Some_nonempty cid Hc), (falsy_Some_nonempty pid Hp).
Qed.

(** What it does to the state when the client id is in the table or names
    nothing the table inherits. *)
Lemma post_admin_upload_linked now today file cid pid description st :
  accepted_file file → cid ≠ "" → pid ≠ "" →
  is_Some (Obj.get cid (clients st)) ∨ Js.inherited cid = false →
  let stored := storage_filename now file in
  let project :=
    Project.mk stored (Js.or_else description ("Project " +:+ pid)) today in
  post_admin_upload now today (Some file) (Some cid) (Some pid) description st
  = (Respond 200
       (UploadedBody "Model uploaded and linked successfully" stored
          ("/uploads/" +:+ stored) cid pid),
     mkState
       (Obj.update cid (Client.assign_project pid project)
          (ensure_client cid (clients st)))
       (Fs.write stored (disk st))).
Proof.
  intros Hacc Hc Hp Hcid. cbv zeta.
  rewrite (post_admin_upload_accepted _ _ _ _ _ _ _ Hacc Hc Hp). cbv zeta.
  by rewrite (read_client_own _ _ _ (ensure_client_get _ _ Hcid)).
Qed.

(** An upload touches no client but the one it names. *)
Lemma post_admin_upload_other_client
    now today file clientId projectId description st k :
  clientId ≠ Some k →
  Obj.get k (clients (post_admin_upload now today file clientId projectId
                        description st).2)
  = Obj.get k (clients st).
Proof.
  intros Hne. unfold post_admin_upload.
  destruct (upload_single now file (disk st)) as [[err|[stored|]] d]; try done.
  destruct (Js.falsy clientId) eqn:Hf; [done|].
  destruct (Js.falsy projectId); [done|]. simpl.
  apply falsy_false in Hf as (cid & -> & _). simpl.
  assert (cid ≠ k) as Hk by congruence.
  assert (Obj.get k (ensure_client cid (clients st)) = Obj.get k (clients st))
    as Hens.
  { unfold ensure_client. destruct (Js.truthy _); [done|].
    by apply get_set_ne. }
  destruct (read_client cid (ensure_client cid (clients st)));
    simpl; rewrite ?get_update_ne by done; done.
Qed.

(** C5, where the code departs from it.  An upload under a client id that
    is absent from the table but names a member of [Object.prototype]
    (such as [constructor]) creates no client: the file is stored, the
    route answers status 500 with [Failed to process upload], and the table
    is as before. *)
Theorem upload_under_inherited_client_id (now : N) (today : string)
    (file : File.t) (cid pid : string) (description : option string)
    (st : State) :
  accepted_file file → cid ≠ "" → pid ≠ "" →
  Obj.get cid (clients st) = None →
  Js.inherited cid = true →
  post_admin_upload now today (Some file) (Some cid) (Some pid) description st
  = (Respond 500 (ErrorBody "Failed to process upload"),
     mkState (clients st) (Fs.write (storage_filename now file) (disk st))).
Proof.
  intros Hacc Hc Hp Hnone Hinh.
  rewrite (post_admin_upload_accepted _ _ _ _ _ _ _ Hacc Hc Hp). cbv zeta.
  rewrite (ensure_client_inherited _ _ Hnone Hinh).
  by rewrite (read_client_inherited _ _ Hnone Hinh).
Qed.

Lemma upload_under_inherited_client_id_witness :
  let file := File.mk "tower.glb" "model/gltf-binary" 2048 in
  accepted_file file ∧
  Obj.get "constructor" (clients state_init) = None ∧
  post_admin_upload 1758121257346 "2025-09-17" (Some file)
    (Some "constructor") (Some "p1") None state_init
  = (Respond 500 (ErrorBody "Failed to process upload"),
     mkState clients_init
       (Fs.write "1758121257346-tower.glb" (Fs.mk ∅ ∅ ∅))).
Proof.
  intros file.
  assert (accepted_file file) as Hacc.
  { split; [by left | by apply N.leb_le]. }
  split_and!; [exact Hacc | reflexivity |].
  apply (upload_under_inherited_client_id 1758121257346 "2025-09-17" file
           "constructor" "p1" None state_init Hacc);
    [done | done | reflexivity | reflexivity].
Defined.

(** X24.  An upload that links a project under a client id that is absent
    from the table, and names no member of [Object.prototype], creates
    exactly one client: its display name is the humanized id (hyphens as
    spaces and the first character of each word in upper case; on an id of
    words joined by hyphens: the words, capitalized, joined by spaces), its
    contact is empty and it owns the linked project (for a project id other
    than [__proto__]); every other client is as before.  A later upload
    under a different client id leaves that client unchanged. *)
Theorem upload_creates_one_client (now : N) (today : string) (file : File.t)
    (cid pid : string) (description : option string) (st : State) :
  accepted_file file → cid ≠ "" → pid ≠ "" →
  Obj.get cid (clients st) = None →
  Js.inherited cid = false →
  pid ≠ "__proto__" →
  ∃ st' project,
    post_admin_upload now today (Some file) (Some cid) (Some pid)
      description st
    = (Respond 200
         (UploadedBody "Model uploaded and linked successfully"
            (storage_filename now file)
            ("/uploads/" +:+ storage_filename now file) cid pid), st')
    ∧ Obj.get cid (clients st')
      = Some (Client.mk (humanize cid) "" [(pid, project)] None)
    ∧ Obj.keys (clients st') ≡ₚ cid :: Obj.keys (clients st)
    ∧ length (clients st') = S (length (clients st))
    ∧ (∀ k, k ≠ cid → Obj.get k (clients st') = Obj.get k (clients st))
    ∧ (∀ i, String.get i (humanize cid) = spec_humanize_at cid i)
    ∧ (∀ words,
         Forall (λ w, all_chars Js.is_word w = true) words →
         cid = join "-" words → humanize cid = spec_humanize words)
    ∧ (∀ now2 today2 file2 cid2 pid2 description2,
         cid2 ≠ Some cid →
         Obj.get cid
           (clients (post_admin_upload now2 today2 file2 cid2 pid2
                       description2 st').2)
         = Obj.get cid (clients st')).
Proof.
  intros Hacc Hc Hp Hnone Hinh Hproto.
  pose proof (post_admin_upload_linked now today file cid pid description st
                Hacc Hc Hp (or_intror Hinh)) as Heq.
  cbv zeta in Heq. rewrite (ensure_client_new _ _ Hnone Hinh) in Heq.
  eexists _, _. split; [exact Heq|]. simpl.
  split_and!.
  - rewrite get_update_eq, get_set_eq.
    cbn [fmap option_fmap option_map]. unfold Client.assign_project.
    cbn [Client.projects Client.name Client.contact Client.projects_proto
         Obj.get].
    apply String.eqb_neq in Hproto as ->. by rewrite set_nil.
  - rewrite keys_update. by apply keys_set_None.
  - rewrite length_update. by apply length_set_None.
  - intros k Hk. rewrite get_update_ne, get_set_ne by done. done.
  - apply humanize_at.
  - intros words Hwords ->. by apply humanize_words.
  - intros. by apply post_admin_upload_other_client.
Qed.

Lemma upload_creates_one_client_witness :
  let file := File.mk "tower.glb" "model/gltf-binary" 2048 in
  accepted_file file ∧
  Obj.get "acme-co" (clients state_init) = None ∧
  ∃ st' project,
    post_admin_upload 1758121257346 "2025-09-17" (Some file) (Some "acme-co")
      (Some "p1") None state_init
    = (Respond 200
         (UploadedBody "Model uploaded and linked successfully"
            "1758121257346-tower.glb" "/uploads/1758121257346-tower.glb"
            "acme-co" "p1"), st')
    ∧ Obj.get "acme-co" (clients st')
      = Some (Client.mk "Acme Co" "" [("p1", project)] None)
    ∧ length (clients st') = 2.
Proof.
  intros file.
  assert (accepted_file file) as Hacc.
  { split; [by left | by apply N.leb_le]. }
  split_and!; [exact Hacc | reflexivity |].
  destruct (upload_creates_one_client 1758121257346 "2025-09-17" file
              "acme-co" "p1" None state_init Hacc)
    as (st' & project & H1 & H2 & _ & H3 & _);
    [done | done | reflexivity | reflexivity | done |].
  exists st', project. split_and!; [exact H1 | exact H2 | exact H3].
Defined.

(** ** Lookup by client name *)

Lemma lower_char_idem c : Js.lower_char (Js.lower_char c) = Js.lower_char c.
Proof. ascii_cases c; reflexivity. Qed.

Lemma toLowerCase_idem s : Js.toLowerCase (Js.toLowerCase s) = Js.toLowerCase s.
Proof.
  unfold Js.toLowerCase. induction s as [|c s IH]; simpl; [done|].
  by rewrite lower_char_idem, IH.
Qed.

Lemma findClientByName_lower a b cs :
  Js.toLowerCase a = Js.toLowerCase b →
  findClientByName a cs = findClientByName b cs.
Proof. intros Heq. unfold findClientByName. by rewrite Heq. Qed.

Lemma findClientByName_None clientName cs :
  findClientByName clientName cs = None ↔
  ∀ c, c ∈ Obj.values cs →
       Js.toLowerCase (Client.name c) ≠ Js.toLowerCase clientName.
Proof.
  unfold findClientByName. induction (Obj.values cs) as [|x l IH]; simpl.
  - split; [by intros _ c ?%not_elem_of_nil | done].
  - destruct (String.eqb_spec (Js.toLowerCase (Client.name x))
                (Js.toLowerCase clientName)) as [Heq|Hne].
    + split; [done|]. intros H. destruct (H x); [left | done].
    + rewrite IH. split.
      * intros H c [->|Hc]%elem_of_cons; auto.
      * intros H c Hc. apply H. by right.
Qed.

(** The client found is the first one, in property order, whose
    lowercased name matches. *)
Lemma findClientByName_Some clientName cs client :
  findClientByName clientName cs = Some client →
  Js.toLowerCase (Client.name client) = Js.toLowerCase clientName ∧
  ∃ before after,
    Obj.values cs = before ++ client :: after ∧
    ∀ c, c ∈ before →
         Js.toLowerCase (Client.name c) ≠ Js.toLowerCase clientName.
Proof.
  unfold findClientByName. induction (Obj.values cs) as [|x l IH]; simpl.
  - done.
  - destruct (String.eqb_spec (Js.toLowerCase (Client.name x))
                (Js.toLowerCase clientName)) as [Heq|Hne].
    + intros [= <-]. split; [done|]. exists [], l.
      split; [done | by intros c ?%not_elem_of_nil].
    + intros [Hm (before & after & -> & Hb)]%IH. split; [done|].
      exists (x :: before), after. split; [done|].
      intros c [->|Hc]%elem_of_cons; auto.
Qed.

(** C7, where the code departs from it.  A lookup whose project id names
    a member of [Object.prototype] (such as [constructor]), under a client
    that has no project of that id, is not answered with the not-found
    message for the project: the handler raises, whatever the case the
    client name is written in, and answers neither status 200 nor status
    404. *)
Theorem lookup_inherited_project_raises (clientName projectNumber : string)
    (st : State) (client : Client.t) :
  findClientByName clientName (clients st) = Some client →
  Obj.get projectNumber (Client.projects client) = None →
  Client.projects_proto client = None →
  Js.inherited projectNumber = true →
  get_client_project clientName projectNumber st = TypeError.
Proof.
  intros Hfind Hget Hproto Hinh. unfold get_client_project.
  rewrite Hfind. unfold Client.read_project. by rewrite Hget, Hproto, Hinh.
Qed.

Lemma lookup_inherited_project_raises_witness :
  (∃ client,
     findClientByName "highway projects inc." (clients state_init)
       = Some client ∧
     Obj.get "constructor" (Client.projects client) = None) ∧
  get_client_project "highway projects inc." "constructor" state_init
    = TypeError.
Proof.
  split; [eexists; split; reflexivity|].
  exact (lookup_inherited_project_raises "highway projects inc."
           "constructor" state_init _ eq_refl eq_refl eq_refl eq_refl).
Defined.

(** X25.  The lookup route, for a project id that names nothing the
    projects of the matched client inherit, always answers (status 200 or
    404).  The client is matched by its display name without regard to
    case; when no client matches, the answer is the 404 message for the
    client; when the matched client has no such project, the 404 message
    for the project; when the project's file is not in the upload
    directory at the time of the request, the 404 message
    [Model file not found]; otherwise the model. *)
Theorem lookup_outcomes (clientName projectNumber : string) (st : State) :
  let out := get_client_project clientName projectNumber st in
  let found := findClientByName clientName (clients st) in
  (∀ client, found = Some client → inherits projectNumber client = false) →
  (∃ status body, out = Respond status body ∧ (status = 200 ∨ status = 404))
  ∧ (∀ other,
       Js.toLowerCase other = Js.toLowerCase clientName →
       findClientByName other (clients st) = found ∧
       status_of (get_client_project other projectNumber st) = status_of out ∧
       (is_Some found → get_client_project other projectNumber st = out))
  ∧ findClientByName (Js.toLowerCase clientName) (clients st) = found
  ∧ (found = None ↔
     ∀ c, c ∈ Obj.values (clients st) →
          Js.toLowerCase (Client.name c) ≠ Js.toLowerCase clientName)
  ∧ (found = None →
     out = Respond 404
             (ErrorBody ("Client " +:+ dquote +:+ clientName +:+ dquote +:+
                         " not found")))
  ∧ (∀ client,
       found = Some client →
       client ∈ Obj.values (clients st) ∧
       Js.toLowerCase (Client.name client) = Js.toLowerCase clientName ∧
       (Obj.get projectNumber (Client.projects client) = None →
        out = Respond 404
                (ErrorBody ("Project " +:+ dquote +:+ projectNumber +:+
                            dquote +:+ " not found for " +:+
                            Client.name client))) ∧
       (∀ project,
          Obj.get projectNumber (Client.projects client) = Some project →
          (Project.filename project ∉ Fs.uploadDir (disk st) →
           out = Respond 404 (ErrorBody "Model file not found")) ∧
          (Project.filename project ∈ Fs.uploadDir (disk st) →
           out = Respond 200
                   (ModelBody ("/uploads/" +:+ Project.filename project)
                      (Client.name client) projectNumber
                      (Project.description project))))).
Proof.
  intros out found Hplain. subst out found. unfold get_client_project.
  split_and!.
  - destruct (findClientByName _ _) as [client|]; [|by eexists _, _; eauto].
    rewrite (read_project_plain _ _ (Hplain client eq_refl)).
    destruct (Obj.get _ _) as [project|]; simpl; [|by eexists _, _; eauto].
    destruct (Fs.existsSync _ _); eexists _, _; eauto.
  - intros other Hother.
    rewrite (findClientByName_lower other clientName _ Hother).
    split; [done|].
    destruct (findClientByName _ _) as [client|]; [done|].
    split; [done | by intros []].
  - apply findClientByName_lower, toLowerCase_idem.
  - apply findClientByName_None.
  - by intros ->.
  - intros client Hfound. rewrite Hfound.
    rewrite (read_project_plain _ _ (Hplain client Hfound)).
    destruct (findClientByName_Some _ _ _ Hfound)
      as (Hm & before & after & Hvals & _).
    split_and!; [|done| |].
    + rewrite Hvals. apply elem_of_app. right. left.
    + by intros ->.
    + intros project ->. simpl. unfold Fs.existsSync. split; intros Hf.
      * by rewrite bool_decide_eq_false_2.
      * by rewrite bool_decide_eq_true_2.
Qed.

Lemma lookup_outcomes_witness :
  let st :=
    mkState clients_init
      (Fs.mk {["1758121257346-4650_highway_a1a_revised_7.24.glb"]} ∅ ∅) in
  get_client_project "HIGHWAY projects INC." "highway001" st
  = Respond 200
      (ModelBody "/uploads/1758121257346-4650_highway_a1a_revised_7.24.glb"
         "Highway Projects Inc." "highway001" "A1A Highway Revision 7.24")
  ∧ get_client_project "HIGHWAY projects INC." "highway002" st
    = Respond 404
        (ErrorBody ("Project " +:+ dquote +:+ "highway002" +:+ dquote +:+
                    " not found for Highway Projects Inc.")).
Proof.
  intros st.
  set (c0 := Client.mk "Highway Projects Inc." "john@highwayproj.com"
               [("highway001",
                 Project.mk "1758121257346-4650_highway_a1a_revised_7.24.glb"
                            "A1A Highway Revision 7.24" "2024-01-15")] None).
  assert (findClientByName "Highway Projects Inc." (clients st) = Some c0)
    as Hc0 by reflexivity.
  assert (∀ number client,
            findClientByName "Highway Projects Inc." (clients st)
              = Some client →
            inherits number client = Js.inherited number) as Hinh.
  { intros number client Hc. rewrite Hc0 in Hc. injection Hc as <-.
    unfold inherits. simpl. apply orb_false_r. }
  split.
  - destruct (lookup_outcomes "Highway Projects Inc." "highway001" st)
      as (_ & Hother & _ & _ & _ & Hfound).
    { intros client Hc. by rewrite (Hinh _ _ Hc). }
    destruct (Hother "HIGHWAY projects INC." eq_refl) as (_ & _ & Heq).
    rewrite Heq by (by eexists).
    destruct (Hfound c0 Hc0) as (_ & _ & _ & Hproject).
    apply (Hproject _ eq_refl). simpl. by apply elem_of_singleton.
  - destruct (lookup_outcomes "Highway Projects Inc." "highway002" st)
      as (_ & Hother & _ & _ & _ & Hfound).
    { intros client Hc. by rewrite (Hinh _ _ Hc). }
    destruct (Hother "HIGHWAY projects INC." eq_refl) as (_ & _ & Heq).
    rewrite Heq by (by eexists).
    destruct (Hfound c0 Hc0) as (_ & _ & Hnone & _).
    apply (Hnone eq_refl).
Defined.

(** ** Creating a client *)

(** *** Runs and words of [replace_runs] *)

(** A stretch of characters outside the class is kept. *)
Lemma replace_runs_keep p r b w rest :
  all_chars (λ c, negb (p c)) w = true → w ≠ "" →
  Js.replace_runs p r b (w +:+ rest) = w +:+ Js.replace_runs p r false rest.
Proof.
  assert (∀ v, all_chars (λ c, negb (p c)) v = true →
               Js.replace_runs p r false (v +:+ rest)
               = v +:+ Js.replace_runs p r false rest) as Hfalse.
  { induction v as [|c v IH]; [done|]. simpl.
    intros [Hc Hv]%andb_true_iff. apply negb_true_iff in Hc.
    rewrite !append_String. simpl. by rewrite Hc, IH. }
  intros Hw Hne. destruct w as [|c w]; [done|]. simpl in Hw.
  apply andb_true_iff in Hw as [Hc Hw]. apply negb_true_iff in Hc.
  rewrite !append_String. simpl. by rewrite Hc, Hfalse.
Qed.

(** Inside a run, further characters of the class leave no trace. *)
Lemma replace_runs_skip p r gap rest :
  all_chars p gap = true →
  Js.replace_runs p r true (gap +:+ rest) = Js.replace_runs p r true rest.
Proof.
  induction gap as [|c gap IH]; simpl; [done|].
  intros [Hc Hgap]%andb_true_iff. rewrite ?append_String. simpl.
  rewrite Hc. auto.
Qed.

(** A whole run becomes one copy of the replacement. *)
Lemma replace_runs_run p r gap rest :
  all_chars p gap = true → gap ≠ "" →
  Js.replace_runs p r false (gap +:+ rest)
  = r +:+ Js.replace_runs p r true rest.
Proof.
  destruct gap as [|c gap]; [done|]. simpl.
  intros [Hc Hgap]%andb_true_iff _. rewrite ?append_String. simpl.
  rewrite Hc. by rewrite replace_runs_skip.
Qed.

Lemma lower_char_space c :
  Js.is_space (Js.lower_char c) = Js.is_space c.
Proof. ascii_cases c; reflexivity. Qed.

Lemma toLowerCase_append s r :
  Js.toLowerCase (s +:+ r) = Js.toLowerCase s +:+ Js.toLowerCase r.
Proof. apply map_append. Qed.

Lemma toLowerCase_all_chars p s :
  (∀ c, p (Js.lower_char c) = p c) →
  all_chars p (Js.toLowerCase s) = all_chars p s.
Proof.
  intros Hp. unfold Js.toLowerCase.
  induction s as [|c s IH]; simpl; [done|]. by rewrite Hp, IH.
Qed.

Lemma toLowerCase_nonempty s : s ≠ "" → Js.toLowerCase s ≠ "".
Proof. by destruct s. Qed.

(** Two words apart by any amount of whitespace: the id is the two
    lowercased words joined by one hyphen. *)
Lemma derive_clientId_two_words w1 gap w2 :
  all_chars (λ c, negb (Js.is_space c)) w1 = true → w1 ≠ "" →
  all_chars Js.is_space gap = true → gap ≠ "" →
  all_chars (λ c, negb (Js.is_space c)) w2 = true → w2 ≠ "" →
  derive_clientId (w1 +:+ gap +:+ w2)
  = Js.toLowerCase w1 +:+ "-" +:+ Js.toLowerCase w2.
Proof.
  intros Hw1 Hn1 Hgap Hng Hw2 Hn2. unfold derive_clientId.
  rewrite !toLowerCase_append.
  rewrite replace_runs_keep; [|
    by rewrite (toLowerCase_all_chars (λ c, negb (Js.is_space c)));
      [|intros c; by rewrite lower_char_space] |
    by apply toLowerCase_nonempty].
  rewrite replace_runs_run; [|
    by rewrite (toLowerCase_all_chars Js.is_space);
      [|apply lower_char_space] |
    by apply toLowerCase_nonempty].
  rewrite <-(append_empty_r (Js.toLowerCase w2)) at 1.
  rewrite replace_runs_keep; [|
    by rewrite (toLowerCase_all_chars (λ c, negb (Js.is_space c)));
      [|intros c; by rewrite lower_char_space] |
    by apply toLowerCase_nonempty].
  simpl. by rewrite append_empty_r.
Qed.

Lemma replace_runs_ext p q r b s :
  all_chars (λ c, Bool.eqb (p c) (q c)) s = true →
  Js.replace_runs p r b s = Js.replace_runs q r b s.
Proof.
  revert b. induction s as [|c s IH]; intros b; simpl; [done|].
  intros [Hc Hs]%andb_true_iff. apply Bool.eqb_prop in Hc. rewrite <-Hc.
  by rewrite !IH.
Qed.

Lemma lower_char_classes c :
  Js.is_alnum c || Js.is_space c = true →
  Bool.eqb (Js.is_space (Js.lower_char c))
           (negb (Js.is_alnum (Js.lower_char c))) = true.
Proof. ascii_cases c; vm_compute; congruence. Qed.

(** On a name of letters, digits and whitespace only, the derived id is
    the one the specification words. *)
Lemma derive_clientId_alnum name :
  all_chars (λ c, Js.is_alnum c || Js.is_space c) name = true →
  derive_clientId name = spec_clientId name.
Proof.
  intros Hname. unfold derive_clientId, spec_clientId.
  apply replace_runs_ext. unfold Js.toLowerCase.
  induction name as [|c s IH]; simpl in *; [done|].
  apply andb_true_iff in Hname as [Hc Hs].
  by rewrite (lower_char_classes c Hc), IH.
Qed.

(** C1, as stated, fails: only whitespace is replaced by hyphens, other
    non-alphanumeric characters stay in the id. *)
Lemma create_client_keeps_punctuation :
  (post_admin_client (Some "Acme & Co") None state_init).1
    = Respond 200 (ClientAddedBody "Client added successfully" "acme-&-co")
  ∧ spec_clientId "Acme & Co" = "acme-co"
  ∧ ¬ spec_createClient_id.
Proof.
  split_and!; [reflexivity | reflexivity |].
  intros Hspec.
  specialize (Hspec "Acme & Co" None state_init
                "Client added successfully" "acme-&-co"
                (post_admin_client (Some "Acme & Co") None state_init).2
                eq_refl).
  discriminate Hspec.
Qed.

(** C1, amended.  For a non-empty name the client id that the route
    reports and files the client under is the lowercased name with every
    run of whitespace replaced by one hyphen (which is the id the
    specification words when the name has only letters, digits and
    whitespace).  When that id names no member of [Object.prototype], the
    route fails with [Client already exists], the state unchanged, exactly
    when the table has that id; otherwise it adds the client under that
    id, with the name as given, and changes no other client. *)
Theorem create_client_derives_id (name : string) (contact : option string)
    (st : State) :
  name ≠ "" →
  let id := Js.replace_runs Js.is_space "-" false (Js.toLowerCase name) in
  let out := post_admin_client (Some name) contact st in
  (∀ message clientId,
     fst out = Respond 200 (ClientAddedBody message clientId) →
     clientId = id ∧
     Obj.get id (clients (snd out))
     = Some (Client.mk name (Js.or_else contact "") [] None))
  ∧ (all_chars (λ c, Js.is_alnum c || Js.is_space c) name = true →
     id = spec_clientId name)
  ∧ (Js.inherited id = false →
     (fst out = Respond 400 (ErrorBody "Client already exists")
      ↔ is_Some (Obj.get id (clients st)))
     ∧ (is_Some (Obj.get id (clients st)) → snd out = st)
     ∧ (Obj.get id (clients st) = None →
        fst out = Respond 200 (ClientAddedBody "Client added successfully" id)
        ∧ Obj.get id (clients (snd out))
          = Some (Client.mk name (Js.or_else contact "") [] None)
        ∧ Obj.keys (clients (snd out)) ≡ₚ id :: Obj.keys (clients st)
        ∧ (∀ k, k ≠ id →
             Obj.get k (clients (snd out)) = Obj.get k (clients st))
        ∧ disk (snd out) = disk st)).
Proof.
  intros Hname id out. subst out. unfold post_admin_client.
  rewrite (falsy_Some_nonempty name Hname). simpl.
  fold (derive_clientId name). unfold derive_clientId. fold id.
  split_and!.
  - intros message clientId.
    destruct (Js.truthy (read_client id (clients st))); simpl; [done|].
    intros [= _ <-]. split; [done | apply get_set_eq].
  - apply derive_clientId_alnum.
  - intros Hinh. destruct (Obj.get id (clients st)) as [c|] eqn:Hget.
    + rewrite (read_client_own _ _ _ Hget). simpl.
      split_and!; [by split; eauto | done | done].
    + rewrite (read_client_absent _ _ Hget Hinh). simpl.
      split_and!; [split; [done | by intros []] | by intros [] |].
      intros _. split_and!; try done.
      * apply get_set_eq.
      * by apply keys_set_None.
      * intros k Hk. by apply get_set_ne.
Qed.

Lemma create_client_derives_id_witness :
  "Acme  Co" ≠ "" ∧
  derive_clientId "Acme  Co" = "acme-co" ∧
  (post_admin_client (Some "Acme  Co") None state_init).1
    = Respond 200 (ClientAddedBody "Client added successfully" "acme-co") ∧
  (post_admin_client (Some "Highway Projects") None state_init).1
    = Respond 400 (ErrorBody "Client already exists").
Proof.
  split_and!; [done | reflexivity | |].
  - refine (proj1 (proj2 (proj2 (proj2 (proj2
      (create_client_derives_id "Acme  Co" None state_init _)) _)) _));
      [done | reflexivity | reflexivity].
  - refine (proj2 (proj1 (proj2 (proj2
      (create_client_derives_id "Highway Projects" None state_init _)) _))
      _); [done | reflexivity | by eexists].
Defined.

(** ** Stored file names *)

Lemma pretty_N_char_digit x : Js.is_digit (pretty_N_char x) = true.
Proof. unfold pretty_N_char. by repeat case_match. Qed.

Lemma pretty_N_go_digits x s :
  all_chars Js.is_digit s = true →
  all_chars Js.is_digit (pretty_N_go x s) = true.
Proof.
  revert s. induction (N.lt_wf_0 x) as [x _ IH]; intros s Hs.
  destruct (decide (x = 0)%N) as [->|Hx]; [by rewrite pretty_N_go_0|].
  rewrite pretty_N_go_step by lia.
  apply IH; [apply N.div_lt; lia|].
  simpl. by rewrite pretty_N_char_digit, Hs.
Qed.

Lemma number_to_string_digits n :
  all_chars Js.is_digit (Js.number_to_string n) = true.
Proof.
  unfold Js.number_to_string, pretty, pretty_N.
  case_decide; [done|]. by apply pretty_N_go_digits.
Qed.

Lemma digit_not_hyphen c : Js.is_digit c = true → c ≠ "-"%char.
Proof. by intros Hc ->. Qed.

(** A string of digits followed by a hyphen is read back unambiguously. *)
Lemma digits_hyphen_inj a b r1 r2 :
  all_chars Js.is_digit a = true → all_chars Js.is_digit b = true →
  a +:+ String "-" r1 = b +:+ String "-" r2 → a = b ∧ r1 = r2.
Proof.
  revert b. induction a as [|c a IH]; intros [|c' b]; simpl;
    intros Ha Hb Heq.
  - by simplify_eq.
  - apply andb_true_iff in Hb as [Hc' _].
    rewrite append_empty_l, append_String in Heq.
    injection Heq as <- _. by destruct (digit_not_hyphen _ Hc').
  - apply andb_true_iff in Ha as [Hc _].
    rewrite append_empty_l, append_String in Heq.
    injection Heq as -> _. by destruct (digit_not_hyphen _ Hc).
  - apply andb_true_iff in Ha as [_ Ha]. apply andb_true_iff in Hb as [_ Hb].
    rewrite !append_String in Heq. simplify_eq.
    destruct (IH b Ha Hb) as [-> ->]; done.
Qed.

Lemma storage_filename_inj now1 now2 file1 file2 :
  storage_filename now1 file1 = storage_filename now2 file2 ↔
  now1 = now2 ∧
  Js.replace_runs Js.is_space "_" false (File.originalname file1)
  = Js.replace_runs Js.is_space "_" false (File.originalname file2).
Proof.
  unfold storage_filename. split; [|by intros [-> ->]].
  intros Heq. apply digits_hyphen_inj in Heq as [Hn Hr];
    try apply number_to_string_digits.
  split; [|done]. by apply (inj pretty).
Qed.

(** The file name under which an accepted upload was stored, as the
    response reports it. *)
Lemma post_admin_upload_stored
    now today file clientId projectId description st m f u c p st' :
  post_admin_upload now today (Some file) clientId projectId description st
    = (Respond 200 (UploadedBody m f u c p), st') →
  f = storage_filename now file ∧ f ∈ Fs.uploadDir (disk st').
Proof.
  unfold post_admin_upload, upload_single.
  destruct (fileFilter file) as [[err|] [|]]; try done.
  cbv zeta. destruct (_ <? _)%N; [done|].
  destruct (_ || _); [done|].
  destruct (read_client _ _) as [c0|t0| |]; try done.
  intros [= _ <- _ _ _ <-]. simpl.
  split; [done|]. by apply elem_of_union_l, elem_of_singleton.
Qed.

(** C3, as stated, fails: two uploads of the same original name served in
    the same millisecond are both accepted and stored under the same
    name. *)
Lemma same_millisecond_uploads_collide :
  let file := File.mk "tower model.glb" "model/gltf-binary" 2048 in
  (run [Upload 1758121257346 "2025-09-17" (Some file)
          (Some "acme-co") (Some "p1") None;
        Upload 1758121257346 "2025-09-17" (Some file)
          (Some "acme-co") (Some "p2") None] state_init).1
  = [Respond 200
       (UploadedBody "Model uploaded and linked successfully"
          "1758121257346-tower_model.glb"
          "/uploads/1758121257346-tower_model.glb" "acme-co" "p1");
     Respond 200
       (UploadedBody "Model uploaded and linked successfully"
          "1758121257346-tower_model.glb"
          "/uploads/1758121257346-tower_model.glb" "acme-co" "p2")]
  ∧ ¬ spec_stored_names_unique.
Proof.
  intros file.
  assert ((run [Upload 1758121257346 "2025-09-17" (Some file)
                  (Some "acme-co") (Some "p1") None;
                Upload 1758121257346 "2025-09-17" (Some file)
                  (Some "acme-co") (Some "p2") None] state_init).1
          = [Respond 200
               (UploadedBody "Model uploaded and linked successfully"
                  "1758121257346-tower_model.glb"
                  "/uploads/1758121257346-tower_model.glb" "acme-co" "p1");
             Respond 200
               (UploadedBody "Model uploaded and linked successfully"
                  "1758121257346-tower_model.glb"
                  "/uploads/1758121257346-tower_model.glb" "acme-co" "p2")])
    as Hrun by (vm_compute; reflexivity).
  split; [exact Hrun|].
  intros Hspec.
  eapply (Hspec _ state_init 0 1); [done | | | reflexivity];
    rewrite Hrun; reflexivity.
Qed.

(** C3, amended.  The stored name of an accepted upload is the decimal
    millisecond time of the request, a hyphen, and the original name with
    every run of whitespace replaced by one underscore; the file is in the
    upload directory under that name.  Two accepted uploads have the same
    stored name exactly when they carry the same millisecond time and
    their original names are the same after that replacement; so uploads
    at different times are stored under different names. *)
Theorem stored_names_distinct_by_time
    (now1 now2 : N) (today1 today2 : string) (file1 file2 : File.t)
    (cid1 pid1 d1 cid2 pid2 d2 : option string) (st1 st2 st1' st2' : State)
    (m1 f1 u1 c1 p1 m2 f2 u2 c2 p2 : string) :
  post_admin_upload now1 today1 (Some file1) cid1 pid1 d1 st1
    = (Respond 200 (UploadedBody m1 f1 u1 c1 p1), st1') →
  post_admin_upload now2 today2 (Some file2) cid2 pid2 d2 st2
    = (Respond 200 (UploadedBody m2 f2 u2 c2 p2), st2') →
  f1 = Js.number_to_string now1 +:+ "-" +:+
       Js.replace_runs Js.is_space "_" false (File.originalname file1)
  ∧ f1 ∈ Fs.uploadDir (disk st1')
  ∧ (f1 = f2 ↔
     now1 = now2 ∧
     Js.replace_runs Js.is_space "_" false (File.originalname file1)
     = Js.replace_runs Js.is_space "_" false (File.originalname file2))
  ∧ (now1 ≠ now2 → f1 ≠ f2).
Proof.
  intros [-> Hin1]%post_admin_upload_stored [-> _]%post_admin_upload_stored.
  split_and!; [done | done | apply storage_filename_inj |].
  intros Hne Heq. by apply storage_filename_inj in Heq as [? _].
Qed.

Lemma stored_names_distinct_by_time_witness :
  let file := File.mk "tower model.glb" "model/gltf-binary" 2048 in
  let first :=
    post_admin_upload 1758121257346 "2025-09-17" (Some file)
      (Some "acme-co") (Some "p1") None state_init in
  let second :=
    post_admin_upload 1758121257347 "2025-09-17" (Some file)
      (Some "acme-co") (Some "p2") None (snd first) in
  fst first
    = Respond 200
        (UploadedBody "Model uploaded and linked successfully"
           "1758121257346-tower_model.glb"
           "/uploads/1758121257346-tower_model.glb" "acme-co" "p1")
  ∧ fst second
    = Respond 200
        (UploadedBody "Model uploaded and linked successfully"
           "1758121257347-tower_model.glb"
           "/uploads/1758121257347-tower_model.glb" "acme-co" "p2")
  ∧ "1758121257346-tower_model.glb" ≠ "1758121257347-tower_model.glb".
Proof.
  intros file first second.
  assert (first
          = (Respond 200
               (UploadedBody "Model uploaded and linked successfully"
                  "1758121257346-tower_model.glb"
                  "/uploads/1758121257346-tower_model.glb" "acme-co" "p1"),
             snd first)) as H1 by reflexivity.
  assert (second
          = (Respond 200
               (UploadedBody "Model uploaded and linked successfully"
                  "1758121257347-tower_model.glb"
                  "/uploads/1758121257347-tower_model.glb" "acme-co" "p2"),
             snd second)) as H2 by reflexivity.
  split_and!; [reflexivity | reflexivity |].
  apply (proj2 (proj2 (proj2
           (stored_names_distinct_by_time _ _ _ _ _ _ _ _ _ _ _ _ _ _ _ _
              _ _ _ _ _ _ _ _ _ _ H1 H2)))).
  discriminate.
Defined.

(** * Further properties of the routes *)

#[local] Set Warnings "-clear-no-such-hyp".

(** ** Deleting a client *)

Lemma move_to_backup_Some f d d' :
  move_to_backup f d = Some d' →
  ((f ∉ Fs.uploadDir d) ∧ d' = d) ∨
  (f ∈ Fs.uploadDir d ∧ (f ∉ Fs.rename_raises d) ∧
   d' = Fs.mk (Fs.uploadDir d ∖ {[f]}) ({[f]} ∪ Fs.backupDir d)
          (Fs.rename_raises d)).
Proof.
  destruct (decide (f ∈ Fs.uploadDir d)) as [Hf|Hf].
  - destruct (decide (f ∈ Fs.rename_raises d)) as [Hr|Hr].
    + by rewrite move_to_backup_raises.
    + rewrite move_to_backup_moves by done. intros [= <-]. by right.
  - rewrite move_to_backup_absent by done. intros [= <-]. by left.
Qed.

Lemma move_to_backup_None f d :
  move_to_backup f d = None →
  f ∈ Fs.uploadDir d ∧ f ∈ Fs.rename_raises d.
Proof.
  destruct (decide (f ∈ Fs.uploadDir d)) as [Hf|Hf].
  - destruct (decide (f ∈ Fs.rename_raises d)) as [Hr|Hr]; [done|].
    by rewrite move_to_backup_moves.
  - by rewrite move_to_backup_absent.
Qed.

(** One move: what it does to the two directories. *)
Lemma move_to_backup_dirs f d d' :
  move_to_backup f d = Some d' →
  Fs.uploadDir d' = Fs.uploadDir d ∖ {[f]} ∧
  Fs.backupDir d' = Fs.backupDir d ∪ (Fs.uploadDir d ∩ {[f]}) ∧
  Fs.rename_raises d' = Fs.rename_raises d.
Proof.
  intros [[Hf ->]|(Hf & _ & ->)]%move_to_backup_Some; simpl;
    split_and!; try done; set_solver.
Qed.

(** The whole loop, when no move raises: every file of the projects has
    left the upload directory, and those that were there are in the backup
    directory. *)
Lemma move_all_dirs ps d d' :
  move_all ps d = inr d' →
  Fs.uploadDir d' = Fs.uploadDir d ∖ filenames ps ∧
  Fs.backupDir d' = Fs.backupDir d ∪ (Fs.uploadDir d ∩ filenames ps) ∧
  Fs.rename_raises d' = Fs.rename_raises d.
Proof.
  unfold filenames. revert d. induction ps as [|p ps IH]; intros d; simpl.
  - intros [= <-]. split_and!; try done; set_solver.
  - destruct (move_to_backup (Project.filename p) d) as [d1|] eqn:Hm;
      [|done].
    intros (Hu & Hb & Hr)%IH.
    destruct (move_to_backup_dirs _ _ _ Hm) as (Hu1 & Hb1 & Hr1).
    rewrite Hu, Hb, Hr, Hu1, Hb1, Hr1. clear.
    split_and!; try done; apply set_eq; intros x;
      destruct (decide (x = Project.filename p)); set_solver.
Qed.

(** The loop stops at the first project whose move raises; the moves of
    the projects before it have been done. *)
Lemma move_all_raised ps d d' :
  move_all ps d = inl d' →
  ∃ moved p rest,
    ps = moved ++ p :: rest ∧
    move_all moved d = inr d' ∧
    Project.filename p ∈ Fs.uploadDir d' ∧
    Project.filename p ∈ Fs.rename_raises d'.
Proof.
  revert d. induction ps as [|p ps IH]; intros d; simpl; [done|].
  destruct (move_to_backup (Project.filename p) d) as [d1|] eqn:Hm.
  - intros (moved & q & rest & -> & Hmoved & Hq)%IH.
    exists (p :: moved), q, rest. simpl. by rewrite Hm.
  - intros [= <-]. apply move_to_backup_None in Hm.
    by exists [], p, ps.
Qed.

Lemma move_all_cons p ps d :
  move_all (p :: ps) d
  = match move_to_backup (Project.filename p) d with
    | None => inl d
    | Some d' => move_all ps d'
    end.
Proof. reflexivity. Qed.

Lemma elem_of_filenames f ps :
  f ∈ filenames ps ↔ ∃ p, p ∈ ps ∧ Project.filename p = f.
Proof.
  unfold filenames. rewrite elem_of_list_to_set, list_elem_of_fmap.
  split; intros (p & ? & ?); exists p; by split.
Qed.

Lemma delete_admin_client_200 clientId st body st' :
  delete_admin_client clientId st = (Respond 200 body, st') →
  ∃ client,
    Obj.get clientId (clients st) = Some client ∧
    move_all (Obj.values (Client.projects client)) (disk st)
      = inr (disk st') ∧
    clients st' = Obj.remove clientId (clients st) ∧
    body = MessageBody
             ("Client " +:+ clientId +:+
              " and all projects moved to backup successfully").
Proof.
  unfold delete_admin_client.
  destruct (Js.truthy (read_client clientId (clients st))); [|done].
  simpl.
  destruct (read_client clientId (clients st)) as [client| | |] eqn:Hc;
    try done.
  apply read_client_Entry in Hc.
  destruct (move_all _ _) as [d|d] eqn:Hm; [done|].
  intros [= <- <-]. by exists client.
Qed.

Lemma delete_admin_client_500 clientId st client body st' :
  Obj.get clientId (clients st) = Some client →
  delete_admin_client clientId st = (Respond 500 body, st') →
  move_all (Obj.values (Client.projects client)) (disk st)
    = inl (disk st') ∧
  clients st' = clients st ∧
  body = ErrorBody "Failed to move client projects to backup".
Proof.
  intros Hc. unfold delete_admin_client.
  rewrite (read_client_own _ _ _ Hc). simpl.
  destruct (move_all _ _) as [d|d] eqn:Hm; [|done].
  by intros [= <- <-].
Qed.

(** X1.  A successful client delete (status 200) removes the client and
    nothing else from the table: the other clients read as before and keep
    their order.  None of the client's project files is left in the upload
    directory; each one that was there is now in the backup directory, and
    no other file has moved. *)
Theorem delete_client_cascade (clientId : string) (st st' : State)
    (body : Body) :
  wf_state st →
  delete_admin_client clientId st = (Respond 200 body, st') →
  ∃ client,
    Obj.get clientId (clients st) = Some client
    ∧ Obj.get clientId (clients st') = None
    ∧ (∀ k, k ≠ clientId →
         Obj.get k (clients st') = Obj.get k (clients st))
    ∧ Obj.keys (clients st')
      = filter (λ k, k ≠ clientId) (Obj.keys (clients st))
    ∧ S (length (clients st')) = length (clients st)
    ∧ (∀ p, p ∈ Obj.values (Client.projects client) →
         (Project.filename p ∉ Fs.uploadDir (disk st')) ∧
         (Project.filename p ∈ Fs.uploadDir (disk st) →
          Project.filename p ∈ Fs.backupDir (disk st')))
    ∧ (∀ f, f ∉ filenames (Obj.values (Client.projects client)) →
         (f ∈ Fs.uploadDir (disk st') ↔ f ∈ Fs.uploadDir (disk st)) ∧
         (f ∈ Fs.backupDir (disk st') ↔ f ∈ Fs.backupDir (disk st))).
Proof.
  intros [Hwf _] (client & Hc & Hm & Hcs & _)%delete_admin_client_200.
  exists client. rewrite Hcs.
  destruct (move_all_dirs _ _ _ Hm) as (Hu & Hb & _).
  split_and!.
  - done.
  - apply get_remove_eq.
  - intros k Hk. by apply get_remove_ne.
  - apply keys_remove.
  - apply length_remove; [done | by eexists].
  - intros p Hp.
    assert (Project.filename p ∈ filenames (Obj.values (Client.projects client)))
      as Hf by (apply elem_of_filenames; by exists p).
    rewrite Hu, Hb, elem_of_difference, elem_of_union, elem_of_intersection.
    intuition.
  - intros f Hf.
    rewrite Hu, Hb, elem_of_difference, elem_of_union, elem_of_intersection.
    intuition.
Qed.

Lemma delete_client_cascade_witness :
  wf_state state_init ∧
  delete_admin_client "highway-projects" state_init
    = (Respond 200
         (MessageBody
            "Client highway-projects and all projects moved to backup successfully"),
       mkState [] (Fs.mk ∅ ∅ ∅)) ∧
  ∃ client,
    Obj.get "highway-projects" (clients state_init) = Some client ∧
    S (length (@nil (string * Client.t))) = length (clients state_init).
Proof.
  assert (delete_admin_client "highway-projects" state_init
          = (Respond 200
               (MessageBody
                  "Client highway-projects and all projects moved to backup successfully"),
             mkState [] (Fs.mk ∅ ∅ ∅))) as Hdel by reflexivity.
  split_and!; [apply wf_state_init | exact Hdel |].
  destruct (delete_client_cascade _ _ _ _ wf_state_init Hdel)
    as (client & Hc & _ & _ & _ & Hlen & _).
  exists client. split; [exact Hc | exact Hlen].
Defined.

(** X2.  A delete of a client of the table that fails (status 500)
    leaves the table as it was, the client and its projects included; the
    loop stopped at the first project whose file could not be renamed, and
    the files of the projects before it have been moved all the same: none
    of them is in the upload directory any more. *)
Theorem delete_client_failure_is_partial (clientId : string)
    (st st' : State) (client : Client.t) (body : Body) :
  Obj.get clientId (clients st) = Some client →
  delete_admin_client clientId st = (Respond 500 body, st') →
  clients st' = clients st ∧
  body = ErrorBody "Failed to move client projects to backup" ∧
  ∃ moved p rest,
    Obj.values (Client.projects client) = moved ++ p :: rest ∧
    Project.filename p ∈ Fs.uploadDir (disk st') ∧
    Project.filename p ∈ Fs.rename_raises (disk st) ∧
    Fs.uploadDir (disk st') = Fs.uploadDir (disk st) ∖ filenames moved ∧
    Fs.backupDir (disk st')
      = Fs.backupDir (disk st) ∪ (Fs.uploadDir (disk st) ∩ filenames moved).
Proof.
  intros Hc Hdel.
  destruct (delete_admin_client_500 _ _ _ _ _ Hc Hdel) as (Hm & Hcs & Hbody).
  destruct (move_all_raised _ _ _ Hm)
    as (moved & p & rest & Hvals & Hmoved & Hin & Hraise).
  destruct (move_all_dirs _ _ _ Hmoved) as (Hu & Hb & Hr).
  split_and!; [done | done |].
  exists moved, p, rest. rewrite <-Hr. by split_and!.
Qed.

Lemma delete_client_failure_is_partial_witness :
  ∃ st' body,
    delete_admin_client "acme-co" state_half_locked = (Respond 500 body, st') ∧
    clients st' = clients state_half_locked ∧
    ("1-a.glb" ∉ Fs.uploadDir (disk st')) ∧
    "1-a.glb" ∈ Fs.backupDir (disk st') ∧
    "2-b.glb" ∈ Fs.uploadDir (disk st').
Proof.
  assert (move_to_backup "1-a.glb" (disk state_half_locked)
          = Some (Fs.mk ({["1-a.glb"; "2-b.glb"]} ∖ {["1-a.glb"]})
                    ({["1-a.glb"]} ∪ ∅) {["2-b.glb"]})) as Hm1.
  { apply move_to_backup_moves; simpl; set_solver. }
  assert (delete_admin_client "acme-co" state_half_locked
          = (Respond 500
               (ErrorBody "Failed to move client projects to backup"),
             mkState (clients state_half_locked)
               (Fs.mk ({["1-a.glb"; "2-b.glb"]} ∖ {["1-a.glb"]})
                  ({["1-a.glb"]} ∪ ∅) {["2-b.glb"]}))) as Hdel.
  { unfold delete_admin_client.
    rewrite (read_client_own "acme-co" (clients state_half_locked) _ eq_refl).
    cbn [Js.truthy negb].
    change (Obj.values (Client.projects _))
      with [Project.mk "1-a.glb" "Project p1" "2025-09-17";
            Project.mk "2-b.glb" "Project p2" "2025-09-17"].
    rewrite move_all_cons. cbn [Project.filename]. rewrite Hm1.
    rewrite move_all_cons. cbn [Project.filename].
    rewrite move_to_backup_raises; [done | simpl; set_solver
                                         | simpl; set_solver]. }
  eexists _, _. split; [exact Hdel|].
  destruct (delete_client_failure_is_partial "acme-co" state_half_locked _ _
              _ eq_refl Hdel)
    as (Hcs & _ & moved & p & rest & Hvals & Hin & _ & Hu & Hb).
  split; [exact Hcs|]. simpl. set_solver.
Defined.

(** ** What the routes never do *)




(** X4.  A request (its form fields being single strings) that is not
    answered with status 200 leaves the table of clients exactly as it
    was, also when the handler raises; the disk may have changed: a stored
    upload, files moved before a failed client delete. *)
Theorem failed_request_keeps_table (r : Request) (st : State) :
  succeeded (handle r st).1 = false →
  clients (handle r st).2 = clients st.
Proof.
  destruct r as [now today file cid pid descr| |name contact|cid pid|cid|n p];
    simpl; try done.
  - unfold post_admin_upload.
    destruct (upload_single now file (disk st)) as [[err|[stored|]] d];
      try done.
    destruct (Js.falsy cid) eqn:Hfc; [done|]. simpl.
    apply falsy_false in Hfc as (c & -> & Hc).
    destruct (Js.falsy pid); [done|]. simpl.
    unfold ensure_client.
    destruct (Js.truthy (read_client c (clients st))) eqn:Ht.
    + by destruct (read_client c (clients st)).
    + unfold read_client at 1. by rewrite get_set_eq.
  - unfold post_admin_client. destruct (Js.falsy name); [done|].
    by destruct (Js.truthy _).
  - unfold delete_admin_project.
    destruct (Js.truthy (read_client cid (clients st))); [|done]. simpl.
    destruct (read_client cid (clients st)) as [client| | |]; try done.
    destruct (Js.truthy (Client.read_project pid client)); [|done]. simpl.
    destruct (Client.read_project pid client) as [project| | |]; try done.
    by destruct (move_to_backup _ _).
  - unfold delete_admin_client.
    destruct (Js.truthy (read_client cid (clients st))); [|done]. simpl.
    destruct (read_client cid (clients st)) as [client| | |]; try done.
    by destruct (move_all _ _).
Qed.

Lemma failed_request_keeps_table_witness :
  let file := File.mk "tower.glb" "model/gltf-binary" 2048 in
  let r :=
    Upload 1758121257346 "2025-09-17" (Some file) (Some "constructor")
      (Some "p1") None in
  (handle r state_init).1
    = Respond 500 (ErrorBody "Failed to process upload") ∧
  clients (handle r state_init).2 = clients state_init ∧
  "1758121257346-tower.glb" ∈ Fs.uploadDir (disk (handle r state_init).2).
Proof.
  intros file r.
  split_and!; [reflexivity | | simpl; set_solver].
  apply (failed_request_keeps_table r state_init). reflexivity.
Defined.

(** ** Linking under a client that exists *)

Lemma length_set_Some {V} k (v : V) o :
  is_Some (Obj.get k o) → length (Obj.set k v o) = length o.
Proof.
  intros Hk. rewrite <-!length_keys. by rewrite keys_set_Some.
Qed.

Lemma assign_project_plain k p c :
  k ≠ "__proto__" →
  Client.assign_project k p c
  = Client.mk (Client.name c) (Client.contact c)
      (Obj.set k p (Client.projects c)) (Client.projects_proto c).
Proof.
  intros Hne%String.eqb_neq. unfold Client.assign_project. rewrite Hne.
  by destruct (Obj.get k (Client.projects c)).
Qed.

(** X5.  An accepted upload under a client id that is in the table, with
    a project id other than [__proto__], keeps the client's name, contact
    and place in the table and creates no client.  The project id now
    reads the new project; if the id was already in use the old project is
    replaced without an error (its file stays in the upload directory),
    the number of projects is the same and the project keeps its place;
    otherwise there is one project more.  No other project and no other
    client changes. *)
Theorem upload_links_under_existing_client (now : N) (today : string)
    (file : File.t) (cid pid : string) (description : option string)
    (st : State) (client : Client.t) :
  accepted_file file → cid ≠ "" → pid ≠ "" →
  pid ≠ "__proto__" →
  Obj.get cid (clients st) = Some client →
  let out :=
    post_admin_upload now today (Some file) (Some cid) (Some pid)
      description st in
  let project :=
    Project.mk (storage_filename now file)
      (Js.or_else description ("Project " +:+ pid)) today in
  succeeded (fst out) = true
  ∧ Obj.get cid (clients (snd out))
    = Some (Client.mk (Client.name client) (Client.contact client)
              (Obj.set pid project (Client.projects client))
              (Client.projects_proto client))
  ∧ Obj.keys (clients (snd out)) = Obj.keys (clients st)
  ∧ (∀ k, k ≠ cid →
       Obj.get k (clients (snd out)) = Obj.get k (clients st))
  ∧ Obj.get pid (Obj.set pid project (Client.projects client)) = Some project
  ∧ (∀ p, p ≠ pid →
       Obj.get p (Obj.set pid project (Client.projects client))
       = Obj.get p (Client.projects client))
  ∧ (is_Some (Obj.get pid (Client.projects client)) →
     Obj.keys (Obj.set pid project (Client.projects client))
     = Obj.keys (Client.projects client))
  ∧ (Obj.get pid (Client.projects client) = None →
     length (Obj.set pid project (Client.projects client))
     = S (length (Client.projects client)))
  ∧ Fs.uploadDir (disk (snd out))
    = {[storage_filename now file]} ∪ Fs.uploadDir (disk st).
Proof.
  intros Hacc Hc Hp Hproto Hget out project. subst out.
  rewrite (post_admin_upload_linked _ _ _ _ _ _ _ Hacc Hc Hp)
    by (left; by eexists).
  rewrite (ensure_client_own _ _ _ Hget). simpl. fold project.
  split_and!.
  - done.
  - by rewrite get_update_eq, Hget, <-assign_project_plain.
  - apply keys_update.
  - intros k Hk. by apply get_update_ne.
  - apply get_set_eq.
  - intros p Hne. by apply get_set_ne.
  - apply keys_set_Some.
  - apply length_set_None.
  - done.
Qed.

Lemma upload_links_under_existing_client_witness :
  let file := File.mk "bridge.glb" "application/octet-stream" 4096 in
  let out :=
    post_admin_upload 1758121257400 "2025-09-17" (Some file)
      (Some "highway-projects") (Some "highway001") None state_init in
  accepted_file file ∧
  succeeded (fst out) = true ∧
  Obj.keys (clients (snd out)) = Obj.keys (clients state_init).
Proof.
  intros file out.
  assert (accepted_file file) as Hacc.
  { split; [right; by exists "bridge" | by apply N.leb_le]. }
  split; [exact Hacc|].
  edestruct (upload_links_under_existing_client 1758121257400 "2025-09-17"
               file "highway-projects" "highway001" None state_init)
    as (H1 & _ & H2 & _); [exact Hacc | done | done | done | reflexivity |].
  split; [exact H1 | exact H2].
Defined.

(** ** Round trips *)

Section TableRoundTrips.
Context {V : Type}.
Implicit Types (o : Obj.t V) (k : string) (v : V).

Lemma remove_app k o1 o2 :
  Obj.remove k (o1 ++ o2) = Obj.remove k o1 ++ Obj.remove k o2.
Proof.
  induction o1 as [|[k' v'] o1 IH]; simpl; [done|].
  destruct (String.eqb k' k); simpl; by rewrite IH.
Qed.

Lemma remove_insert_index n k v o :
  Obj.get k o = None → Obj.remove k (Obj.insert_index n k v o) = o.
Proof.
  induction o as [|[k' v'] o IH]; simpl.
  - by rewrite String.eqb_refl.
  - destruct (String.eqb_spec k' k) as [->|Hne]; [done|]. intros Hg.
    destruct (Obj.array_index k'); [destruct (_ <? _)%N|]; simpl;
      rewrite ?String.eqb_refl.
    + apply String.eqb_neq in Hne as ->. by rewrite IH.
    + apply String.eqb_neq in Hne as ->. by rewrite remove_absent.
    + apply String.eqb_neq in Hne as ->. by rewrite remove_absent.
Qed.

(** Setting a new key and deleting it again gives the table back, in the
    same order. *)
Lemma remove_set_new k v o :
  Obj.get k o = None → Obj.remove k (Obj.set k v o) = o.
Proof.
  intros Hg. unfold Obj.set. rewrite Hg.
  destruct (Obj.array_index k); [by apply remove_insert_index|].
  rewrite remove_app, remove_absent by done. simpl.
  by rewrite String.eqb_refl, app_nil_r.
Qed.

Lemma get_elem_wf k v o : Obj.wf o → (k, v) ∈ o → Obj.get k o = Some v.
Proof.
  unfold Obj.wf, Obj.keys. induction o as [|[k' v'] o IH]; simpl.
  - by intros _ ?%not_elem_of_nil.
  - intros [Hk' Hwf]%NoDup_cons [[= -> ->]|Hin]%elem_of_cons.
    + by rewrite String.eqb_refl.
    + destruct (String.eqb_spec k' k) as [->|Hne]; [|auto].
      destruct Hk'. apply list_elem_of_fmap. by exists (k, v).
Qed.

End TableRoundTrips.

Lemma findClientByName_app clientName before c after k :
  (∀ kc, kc ∈ before →
         Js.toLowerCase (Client.name kc.2) ≠ Js.toLowerCase clientName) →
  Js.toLowerCase (Client.name c) = Js.toLowerCase clientName →
  findClientByName clientName (before ++ (k, c) :: after) = Some c.
Proof.
  intros Hbefore Hc. unfold findClientByName, Obj.values.
  induction before as [|[k' c'] before IH]; simpl.
  - by apply String.eqb_eq in Hc as ->.
  - destruct (String.eqb_spec (Js.toLowerCase (Client.name c'))
                (Js.toLowerCase clientName)) as [Heq|_].
    + destruct (Hbefore (k', c')); [left | done].
    + apply IH. intros kc Hkc. apply Hbefore. by right.
Qed.

(** A lookup by name answers from the client it reaches. *)
Lemma reached_by_found clientName clientId cs :
  Obj.wf cs → reached_by clientName clientId cs →
  ∃ c, findClientByName clientName cs = Some c ∧
       Obj.get clientId cs = Some c.
Proof.
  intros Hwf (before & c & after & -> & Hc & Hbefore). exists c. split.
  - by apply findClientByName_app.
  - apply get_elem_wf; [done|]. apply elem_of_app. right. left.
Qed.

(** When only one client has the name, the lookup reaches it. *)
Lemma reached_by_unique clientName clientId cs c :
  Obj.wf cs → Obj.get clientId cs = Some c →
  Js.toLowerCase (Client.name c) = Js.toLowerCase clientName →
  (∀ k' c', Obj.get k' cs = Some c' →
            Js.toLowerCase (Client.name c') = Js.toLowerCase clientName →
            k' = clientId) →
  reached_by clientName clientId cs.
Proof.
  intros Hwf Hget Hc Honly.
  destruct (list_elem_of_split _ _ (get_Some_elem _ _ _ Hget))
    as (before & after & Hcs).
  exists before, c, after. split_and!; [done | done |].
  intros [k' c'] Hin Hmatch. simpl in Hmatch.
  assert (Obj.get k' cs = Some c') as Hk'.
  { apply get_elem_wf; [done|]. rewrite Hcs. apply elem_of_app. by left. }
  specialize (Honly k' c' Hk' Hmatch). subst k'.
  unfold Obj.wf, Obj.keys in Hwf. rewrite Hcs, fmap_app in Hwf.
  apply NoDup_app in Hwf as (_ & Hdisj & _).
  apply (Hdisj clientId).
  - apply list_elem_of_fmap. by exists (clientId, c').
  - simpl. left.
Qed.

(** The state after an accepted upload with both ids, when the client id
    is in the table or names nothing the table inherits: the client is in
    the table with the project assigned, the file is in the upload
    directory. *)
Lemma post_admin_upload_linked_state
    now today file cid pid description st :
  accepted_file file → cid ≠ "" → pid ≠ "" →
  is_Some (Obj.get cid (clients st)) ∨ Js.inherited cid = false →
  let st1 :=
    (post_admin_upload now today (Some file) (Some cid) (Some pid)
       description st).2 in
  let project :=
    Project.mk (storage_filename now file)
      (Js.or_else description ("Project " +:+ pid)) today in
  let before :=
    from_option id (Client.mk (humanize cid) "" [] None)
      (Obj.get cid (clients st)) in
  Obj.get cid (clients st1) = Some (Client.assign_project pid project before)
  ∧ disk st1 = Fs.write (storage_filename now file) (disk st).
Proof.
  intros Hacc Hc Hp Hcid st1 project before. subst st1.
  rewrite (post_admin_upload_linked _ _ _ _ _ _ _ Hacc Hc Hp Hcid). simpl.
  split; [|done]. by rewrite get_update_eq, (ensure_client_get _ _ Hcid).
Qed.

(** A client id that is in the table after an accepted upload under it
    was in the table before, or names nothing the table inherits. *)
Lemma post_admin_upload_key now today file cid pid description st :
  accepted_file file → cid ≠ "" → pid ≠ "" →
  is_Some (Obj.get cid
             (clients (post_admin_upload now today (Some file) (Some cid)
                         (Some pid) description st).2)) →
  is_Some (Obj.get cid (clients st)) ∨ Js.inherited cid = false.
Proof.
  intros Hacc Hc Hp.
  destruct (Obj.get cid (clients st)) as [c|] eqn:Hget; [by left; eexists|].
  destruct (Js.inherited cid) eqn:Hinh; [|by right].
  rewrite (post_admin_upload_accepted _ _ _ _ _ _ _ Hacc Hc Hp). cbv zeta.
  rewrite (ensure_client_inherited _ _ Hget Hinh).
  rewrite (read_client_inherited _ _ Hget Hinh). simpl. rewrite Hget.
  by intros []%is_Some_None.
Qed.

(** The project just assigned is what its id reads, [__proto__]
    included. *)
Lemma read_assign_project k p c :
  Client.read_project k (Client.assign_project k p c) = Js.Entry p.
Proof.
  unfold Client.assign_project, Client.read_project.
  destruct (Obj.get k (Client.projects c)) eqn:Hget; simpl.
  - by rewrite get_set_eq.
  - destruct (String.eqb_spec k "__proto__") as [->|Hne]; simpl.
    + by rewrite Hget.
    + by rewrite get_set_eq.
Qed.

(** X6.  Upload, then look up: after an accepted upload that links
    project [pid] under client [cid], a lookup by any spelling (in any
    case) of a name that reaches that client answers status 200 with the
    path [/uploads/] followed by the stored file name, the client's
    display name and the project's description (the given one, or
    [Project] followed by the project id when none was given). *)
Theorem upload_then_lookup (now : N) (today : string) (file : File.t)
    (cid pid : string) (description : option string) (st : State)
    (clientName other : string) :
  wf_state st →
  accepted_file file → cid ≠ "" → pid ≠ "" →
  let st1 :=
    (post_admin_upload now today (Some file) (Some cid) (Some pid)
       description st).2 in
  reached_by clientName cid (clients st1) →
  Js.toLowerCase other = Js.toLowerCase clientName →
  ∃ client,
    Obj.get cid (clients st1) = Some client ∧
    get_client_project other pid st1
    = Respond 200
        (ModelBody ("/uploads/" +:+ storage_filename now file)
           (Client.name client) pid
           (Js.or_else description ("Project " +:+ pid))).
Proof.
  intros Hwf Hacc Hc Hp st1 Hreach Hother.
  assert (wf_state st1) as [Hwf1 _] by by apply post_admin_upload_wf.
  destruct (reached_by_found _ _ _ Hwf1 Hreach) as (c & Hfind & Hget).
  assert (is_Some (Obj.get cid (clients st)) ∨ Js.inherited cid = false)
    as Hcid.
  { apply (post_admin_upload_key now today file cid pid description st);
      [done | done | done | by eexists]. }
  destruct (post_admin_upload_linked_state now today file cid pid description
              st Hacc Hc Hp Hcid) as [Hget1 Hdisk]. fold st1 in Hget1, Hdisk.
  exists c. split; [done|]. unfold get_client_project.
  rewrite (findClientByName_lower other clientName _ Hother), Hfind.
  rewrite Hget1 in Hget. injection Hget as <-.
  rewrite read_assign_project. simpl.
  rewrite Hdisk. unfold Fs.existsSync. simpl.
  rewrite bool_decide_eq_true_2; [done|].
  by apply elem_of_union_l, elem_of_singleton.
Qed.

Lemma upload_then_lookup_witness :
  let file := File.mk "tower.glb" "model/gltf-binary" 2048 in
  let st1 :=
    (post_admin_upload 1758121257346 "2025-09-17" (Some file)
       (Some "acme-co") (Some "p1") None state_init).2 in
  reached_by "ACME co" "acme-co" (clients st1) ∧
  get_client_project "acme CO" "p1" st1
  = Respond 200
      (ModelBody "/uploads/1758121257346-tower.glb" "Acme Co" "p1"
         "Project p1").
Proof.
  intros file st1.
  assert (accepted_file file) as Hacc.
  { split; [by left | by apply N.leb_le]. }
  assert (reached_by "ACME co" "acme-co" (clients st1)) as Hreach.
  { eexists [_], _, []. split_and!; [reflexivity | reflexivity |].
    intros kc ->%list_elem_of_singleton. discriminate. }
  split; [exact Hreach|].
  destruct (upload_then_lookup 1758121257346 "2025-09-17" file "acme-co" "p1"
              None state_init "ACME co" "acme CO" wf_state_init Hacc)
    as (client & Hget & Hout); [done | done | exact Hreach | reflexivity |].
  vm_compute in Hget. injection Hget as <-. exact Hout.
Defined.

(** X7.  Upload, then delete the project: for a client id that names no
    member of [Object.prototype] and a project id other than [__proto__],
    when the stored file can be renamed, the delete answers status 200,
    the file is in the backup directory and no longer in the upload
    directory, and the project is gone.  The client stays in the table,
    also when it was created by the upload and is left without projects.
    If the project id was new, the client's projects are exactly those it
    had before the upload, and the count returned is their number. *)
Theorem upload_then_delete_project (now : N) (today : string)
    (file : File.t) (cid pid : string) (description : option string)
    (st : State) :
  accepted_file file → cid ≠ "" → pid ≠ "" →
  Js.inherited cid = false →
  pid ≠ "__proto__" →
  storage_filename now file ∉ Fs.rename_raises (disk st) →
  let st1 :=
    (post_admin_upload now today (Some file) (Some cid) (Some pid)
       description st).2 in
  let out := delete_admin_project cid pid st1 in
  let before :=
    from_option Client.projects [] (Obj.get cid (clients st)) in
  succeeded (fst out) = true
  ∧ (storage_filename now file ∉ Fs.uploadDir (disk (snd out)))
  ∧ storage_filename now file ∈ Fs.backupDir (disk (snd out))
  ∧ ¬ has_project cid pid (clients (snd out))
  ∧ is_Some (Obj.get cid (clients (snd out)))
  ∧ (Obj.get pid before = None →
     Client.projects <$> Obj.get cid (clients (snd out)) = Some before ∧
     fst out
     = Respond 200
         (ProjectDeletedBody
            ("Project " +:+ pid +:+ " moved to backup successfully")
            (length before))).
Proof.
  intros Hacc Hc Hp Hinh Hproto Hraise st1 out before.
  destruct (post_admin_upload_linked_state now today file cid pid description
              st Hacc Hc Hp (or_intror Hinh)) as [Hget1 Hdisk].
  fold st1 in Hget1, Hdisk.
  set (project := Project.mk (storage_filename now file)
                    (Js.or_else description ("Project " +:+ pid)) today)
    in Hget1.
  set (c0 := from_option id (Client.mk (humanize cid) "" [] None)
               (Obj.get cid (clients st))) in Hget1.
  rewrite (assign_project_plain _ _ _ Hproto) in Hget1.
  assert (Client.projects c0 = before) as Hbefore.
  { subst c0 before. by destruct (Obj.get cid (clients st)). }
  assert (move_to_backup (storage_filename now file) (disk st1)
          = Some (Fs.mk (Fs.uploadDir (disk st1) ∖ {[storage_filename now file]})
                    ({[storage_filename now file]} ∪ Fs.backupDir (disk st1))
                    (Fs.rename_raises (disk st1)))) as Hmove.
  { apply move_to_backup_moves; rewrite Hdisk; simpl; [|done].
    by apply elem_of_union_l, elem_of_singleton. }
  subst out.
  rewrite (delete_admin_project_moved cid pid st1 _ project _ Hget1
             (get_set_eq _ _ _) Hmove). simpl.
  rewrite get_update_eq, Hget1. simpl.
  split_and!.
  - done.
  - rewrite elem_of_difference, elem_of_singleton. by intros [_ ?].
  - by apply elem_of_union_l, elem_of_singleton.
  - intros (c & Hc' & Hp'). rewrite get_update_eq, Hget1 in Hc'.
    simpl in Hc'. injection Hc' as <-. simpl in Hp'.
    rewrite get_remove_eq in Hp'. by destruct Hp'.
  - by eexists.
  - rewrite Hbefore. intros Hnew.
    by rewrite length_keys, (remove_set_new pid project before Hnew).
Qed.

Lemma upload_then_delete_project_witness :
  let file := File.mk "tower.glb" "model/gltf-binary" 2048 in
  let st1 :=
    (post_admin_upload 1758121257346 "2025-09-17" (Some file)
       (Some "acme-co") (Some "p1") None state_init).2 in
  accepted_file file ∧
  (delete_admin_project "acme-co" "p1" st1).1
  = Respond 200
      (ProjectDeletedBody "Project p1 moved to backup successfully" 0) ∧
  "1758121257346-tower.glb"
    ∈ Fs.backupDir (disk (delete_admin_project "acme-co" "p1" st1).2).
Proof.
  intros file st1.
  assert (accepted_file file) as Hacc.
  { split; [by left | by apply N.leb_le]. }
  split; [exact Hacc|].
  destruct (upload_then_delete_project 1758121257346 "2025-09-17" file
              "acme-co" "p1" None state_init Hacc)
    as (_ & _ & Hbackup & _ & _ & Hnew);
    [done | done | reflexivity | done | simpl; apply not_elem_of_empty |].
  split; [exact (proj2 (Hnew eq_refl)) | exact Hbackup].
Defined.

(** X8.  Create a client, then delete it: for a name whose id is not in
    the table and names no member of [Object.prototype], the client delete
    that follows the creation answers status 200 and gives back exactly
    the state before the creation, the order of the clients included. *)
Theorem create_then_delete_client (name : string) (contact : option string)
    (st : State) :
  name ≠ "" →
  Obj.get (derive_clientId name) (clients st) = None →
  Js.inherited (derive_clientId name) = false →
  delete_admin_client (derive_clientId name)
    (post_admin_client (Some name) contact st).2
  = (Respond 200
       (MessageBody
          ("Client " +:+ derive_clientId name +:+
           " and all projects moved to backup successfully")), st).
Proof.
  intros Hname Hnew Hinh. unfold post_admin_client.
  rewrite (falsy_Some_nonempty name Hname). simpl.
  rewrite (read_client_absent _ _ Hnew Hinh). simpl.
  unfold delete_admin_client. simpl.
  rewrite (read_client_own _ _ _ (get_set_eq _ _ _)). simpl.
  rewrite remove_set_new by done. by destruct st.
Qed.

Lemma create_then_delete_client_witness :
  "Acme Co" ≠ "" ∧
  delete_admin_client "acme-co"
    (post_admin_client (Some "Acme Co") None state_init).2
  = (Respond 200
       (MessageBody
          "Client acme-co and all projects moved to backup successfully"),
     state_init).
Proof.
  split; [done|].
  apply (create_then_delete_client "Acme Co" None state_init);
    [done | reflexivity | reflexivity].
Defined.

(** ** The shape of derived ids and stored names *)

Lemma all_chars_append p s r :
  all_chars p (s +:+ r) = all_chars p s && all_chars p r.
Proof.
  induction s as [|c s IH]; [done|].
  rewrite append_String. simpl. by rewrite IH, andb_assoc.
Qed.

(** The characters of the result of [replace_runs] are those of the
    replacement and those of the subject outside the class. *)
Lemma replace_runs_all_chars q p r b s :
  all_chars q r = true →
  all_chars (λ c, p c || q c) s = true →
  all_chars q (Js.replace_runs p r b s) = true.
Proof.
  intros Hr. revert b. induction s as [|c s IH]; intros b; simpl; [done|].
  intros [Hc Hs]%andb_true_iff. destruct (p c); simpl in *.
  - destruct b; [auto|]. rewrite all_chars_append, Hr. simpl. auto.
  - rewrite Hc. simpl. auto.
Qed.

(** Without a character of the class, nothing is replaced. *)
Lemma replace_runs_id p r b s :
  all_chars (λ c, negb (p c)) s = true → Js.replace_runs p r b s = s.
Proof.
  revert b. induction s as [|c s IH]; intros b; simpl; [done|].
  intros [Hc Hs]%andb_true_iff. apply negb_true_iff in Hc as ->.
  by rewrite IH.
Qed.

(** An end of the subject without a character of the class is an end of
    the result. *)
Lemma replace_runs_keep_end p r b s w :
  all_chars (λ c, negb (p c)) w = true →
  Js.replace_runs p r b (s +:+ w) = Js.replace_runs p r b s +:+ w.
Proof.
  intros Hw. revert b. induction s as [|c s IH]; intros b.
  - by rewrite !append_empty_l, replace_runs_id.
  - rewrite append_String. simpl. destruct (p c).
    + destruct b; rewrite IH; [done|]. by rewrite append_assoc.
    + by rewrite IH, append_String.
Qed.

Lemma all_chars_true p s : (∀ c, p c = true) → all_chars p s = true.
Proof. intros Hp. induction s as [|c s IH]; simpl; [done|]. by rewrite Hp. Qed.

Lemma all_chars_toLowerCase q s :
  (∀ c, q (Js.lower_char c) = true) →
  all_chars q (Js.toLowerCase s) = true.
Proof.
  intros Hq. unfold Js.toLowerCase.
  induction s as [|c s IH]; simpl; [done|]. by rewrite Hq.
Qed.

Lemma map_fixed f s :
  all_chars (λ c, Ascii.eqb (f c) c) s = true → Js.map f s = s.
Proof.
  induction s as [|c s IH]; simpl; [done|].
  intros [Hc Hs]%andb_true_iff. apply Ascii.eqb_eq in Hc. by rewrite Hc, IH.
Qed.

Lemma lower_char_not_upper c : negb (Js.is_upper (Js.lower_char c)) = true.
Proof. ascii_cases c; reflexivity. Qed.

Lemma lower_char_fixed c :
  Ascii.eqb (Js.lower_char (Js.lower_char c)) (Js.lower_char c) = true.
Proof. apply Ascii.eqb_eq, lower_char_idem. Qed.

Lemma derive_clientId_chars q name :
  q "-"%char = true → (∀ c, Js.is_space c || q (Js.lower_char c) = true) →
  all_chars q (derive_clientId name) = true.
Proof.
  intros Hhyphen Hq. unfold derive_clientId.
  apply replace_runs_all_chars; [simpl; by rewrite Hhyphen|].
  unfold Js.toLowerCase. induction name as [|c s IH]; simpl; [done|].
  by rewrite lower_char_space, Hq.
Qed.

(** X9.  The client id derived from a name is canonical: it has no
    whitespace and no letter A-Z, deriving an id from it gives it back, the
    name in lower case derives the same id, and it is empty only for the
    empty name. *)
Theorem derived_id_is_canonical (name : string) :
  let id := derive_clientId name in
  all_chars (λ c, negb (Js.is_space c) && negb (Js.is_upper c)) id = true
  ∧ derive_clientId id = id
  ∧ derive_clientId (Js.toLowerCase name) = id
  ∧ (id = "" ↔ name = "").
Proof.
  intros id. subst id. split_and!.
  - apply derive_clientId_chars; [done|]. intros c.
    rewrite lower_char_space, lower_char_not_upper.
    by destruct (Js.is_space c).
  - unfold derive_clientId at 1.
    assert (Js.toLowerCase (derive_clientId name) = derive_clientId name)
      as ->.
    { apply map_fixed, derive_clientId_chars; [done|]. intros c.
      by rewrite lower_char_fixed, orb_true_r. }
    apply replace_runs_id, derive_clientId_chars; [done|]. intros c.
    rewrite lower_char_space. by destruct (Js.is_space c).
  - unfold derive_clientId. by rewrite toLowerCase_idem.
  - split; [|by intros ->].
    destruct name as [|c s]; [done|]. unfold derive_clientId. simpl.
    by destruct (Js.is_space (Js.lower_char c)).
Qed.

Lemma derive_clientId_nonempty name : name ≠ "" → derive_clientId name ≠ "".
Proof.
  destruct name as [|c s]; [done|]. intros _. unfold derive_clientId. simpl.
  by destruct (Js.is_space (Js.lower_char c)).
Qed.

Lemma get_update_is_Some {V} k k' (f : V → V) (o : Obj.t V) :
  is_Some (Obj.get k o) → is_Some (Obj.get k (Obj.update k' f o)).
Proof. rewrite !get_Some_keys. by rewrite keys_update. Qed.

Lemma get_set_is_Some {V} k k' (v : V) (o : Obj.t V) :
  is_Some (Obj.get k o) → is_Some (Obj.get k (Obj.set k' v o)).
Proof.
  intros Hk. destruct (decide (k' = k)) as [->|Hne].
  - rewrite get_set_eq. by eexists.
  - by rewrite get_set_ne.
Qed.

(** Only the delete of a client removes it from the table. *)
Lemma handle_keeps_client r st k :
  r ≠ DeleteClient k →
  is_Some (Obj.get k (clients st)) →
  is_Some (Obj.get k (clients (handle r st).2)).
Proof.
  intros Hr Hk.
  destruct r as [now today file cid pid descr| |name contact|cid pid|cid|n p];
    simpl; try done.
  - unfold post_admin_upload.
    destruct (upload_single now file (disk st)) as [[err|[stored|]] d];
      try done.
    destruct (_ || _); [done|].
    assert (is_Some (Obj.get k (ensure_client (default "" cid) (clients st))))
      as Hens.
    { unfold ensure_client. destruct (Js.truthy _); [done|].
      by apply get_set_is_Some. }
    destruct (read_client _ _) as [c0|t0| |]; simpl; try done.
    by apply get_update_is_Some.
  - unfold post_admin_client. destruct (Js.falsy name); [done|].
    destruct (Js.truthy _); [done|]. simpl. by apply get_set_is_Some.
  - unfold delete_admin_project.
    destruct (Js.truthy (read_client cid (clients st))); [|done]. simpl.
    destruct (read_client cid (clients st)) as [client| | |]; try done.
    destruct (Js.truthy (Client.read_project pid client)); [|done]. simpl.
    destruct (Client.read_project pid client) as [project| | |]; try done.
    destruct (move_to_backup _ _); [|done]. simpl.
    by apply get_update_is_Some.
  - unfold delete_admin_client.
    destruct (Js.truthy (read_client cid (clients st))); [|done]. simpl.
    destruct (read_client cid (clients st)) as [client| | |]; try done.
    destruct (move_all _ _); [done|]. simpl.
    rewrite get_remove_ne; [done|]. congruence.
Qed.

Lemma run_keeps_client rs st k :
  DeleteClient k ∉ rs →
  is_Some (Obj.get k (clients st)) →
  is_Some (Obj.get k (clients (run rs st).2)).
Proof.
  revert st. induction rs as [|r rs IH]; intros st Hrs Hk; simpl; [done|].
  apply not_elem_of_cons in Hrs as [Hr Hrs].
  pose proof (handle_keeps_client r st k (not_eq_sym Hr) Hk) as Hk1.
  destruct (handle r st) as [o st1]. specialize (IH st1 Hrs Hk1).
  by destruct (run rs st1).
Qed.

(** X10.  Once a client has been created from a name, and until a request
    asks to delete that client, every creation under a name with the same
    derived id (the same name in another case or with other amounts of
    whitespace between its words, or the id itself) is refused with
    [Client already exists] and changes nothing, whatever other requests
    have been served in between. *)
Theorem equivalent_name_is_duplicate (name1 name2 : string)
    (contact1 contact2 : option string) (st : State) (rs : list Request) :
  derive_clientId name2 = derive_clientId name1 →
  succeeded (post_admin_client (Some name1) contact1 st).1 = true →
  DeleteClient (derive_clientId name1) ∉ rs →
  let st1 := (post_admin_client (Some name1) contact1 st).2 in
  let st2 := (run rs st1).2 in
  post_admin_client (Some name2) contact2 st2
  = (Respond 400 (ErrorBody "Client already exists"), st2).
Proof.
  intros Hsame Hok Hrs st1 st2.
  assert (name1 ≠ "" ∧ is_Some (Obj.get (derive_clientId name1) (clients st1)))
    as [Hname1 Hin].
  { subst st1. unfold post_admin_client in *.
    destruct (Js.falsy (Some name1)) eqn:Hf; [by simpl in Hok|].
    apply falsy_false in Hf as (n & [= <-] & Hn). split; [done|].
    cbn [from_option default id] in *.
    destruct (Js.truthy _); [by simpl in Hok|].
    cbn [snd clients]. rewrite get_set_eq. by eexists. }
  assert (name2 ≠ "") as Hname2.
  { intros ->. by apply (derive_clientId_nonempty name1). }
  pose proof (run_keeps_client rs st1 _ Hrs Hin) as Hin2. fold st2 in Hin2.
  unfold post_admin_client.
  rewrite (falsy_Some_nonempty name2 Hname2). cbn [from_option default id].
  rewrite Hsame. destruct Hin2 as [c Hc].
  by rewrite (read_client_own _ _ _ Hc).
Qed.

Lemma equivalent_name_is_duplicate_witness :
  let file := File.mk "tower.glb" "model/gltf-binary" 2048 in
  let rs :=
    [Upload 1758121257346 "2025-09-17" (Some file) (Some "acme-co")
       (Some "p1") None;
     CreateClient (Some "Beta") None] in
  let st2 :=
    (run rs (post_admin_client (Some "Acme Co") None state_init).2).2 in
  derive_clientId "ACME   co" = derive_clientId "Acme Co" ∧
  post_admin_client (Some "ACME   co") (Some "info@acme.example") st2
  = (Respond 400 (ErrorBody "Client already exists"), st2).
Proof.
  intros file rs st2. split; [reflexivity|].
  apply (equivalent_name_is_duplicate "Acme Co" "ACME   co" None
           (Some "info@acme.example") state_init rs);
    [reflexivity | reflexivity |].
  intros Hin. repeat (apply elem_of_cons in Hin as [Hin|Hin]; [done|]).
  by apply not_elem_of_nil in Hin.
Defined.

(** X11.  A stored file name has no whitespace, and it ends as the
    original name ends: an extension without whitespace (such as [.glb])
    is kept by the renaming. *)
Theorem stored_name_shape (now : N) (file : File.t) :
  all_chars (λ c, negb (Js.is_space c)) (storage_filename now file) = true
  ∧ ∀ extension,
      all_chars (λ c, negb (Js.is_space c)) extension = true →
      Js.endsWith (File.originalname file) extension = true →
      Js.endsWith (storage_filename now file) extension = true.
Proof.
  unfold storage_filename. split.
  - rewrite !all_chars_append. apply andb_true_iff. split.
    + pose proof (number_to_string_digits now) as Hd.
      induction (Js.number_to_string now) as [|c s IH]; [done|].
      simpl in *. apply andb_true_iff in Hd as [Hc Hs].
      rewrite (IH Hs), andb_true_r. clear -Hc.
      revert Hc. ascii_cases c; vm_compute; congruence.
    + apply andb_true_iff. split; [done|].
      apply replace_runs_all_chars; [done|].
      apply all_chars_true. intros c. by destruct (Js.is_space c).
  - intros extension Hext [stem Hstem]%endsWith_spec.
    apply endsWith_spec. rewrite Hstem, replace_runs_keep_end by done.
    eexists. by rewrite <-!append_assoc.
Qed.

(** ** The client list *)

Lemma elem_get_wf {V} k (v : V) o : Obj.wf o → (k, v) ∈ o ↔ Obj.get k o = Some v.
Proof. intros Hwf. split; [by apply get_elem_wf | apply get_Some_elem]. Qed.

(** X12.  The client list answers status 200 with one entry per client of
    the table, in the order of the table; an entry carries the id, name,
    contact and projects of its client, and its project count is the
    number of projects of that client. *)
Theorem client_list_reflects_table (st : State) :
  wf_state st →
  ∃ views,
    get_admin_clients st = Respond 200 (ClientsBody views)
    ∧ List.map ClientView.id views = Obj.keys (clients st)
    ∧ ∀ v, v ∈ views ↔
           ∃ c, Obj.get (ClientView.id v) (clients st) = Some c ∧
                v = ClientView.mk (ClientView.id v) (Client.name c)
                      (Client.contact c) (Client.projects c)
                      (projectCount (ClientView.id v) (clients st)).
Proof.
  intros [Hwf _]. eexists. split; [reflexivity|]. split.
  - clear Hwf. unfold Obj.keys.
    induction (clients st) as [|[k c] cs IH]; simpl; [done|].
    f_equal. exact IH.
  - intros v. rewrite list_elem_of_In, in_map_iff. split.
    + intros ([k c] & <- & Hin%list_elem_of_In). simpl.
      apply (elem_get_wf _ _ _ Hwf) in Hin. exists c. split; [done|].
      unfold projectCount. by rewrite Hin.
    + intros (c & Hget & Hv). exists (ClientView.id v, c). split.
      * simpl. unfold projectCount in Hv. rewrite Hget in Hv. by symmetry.
      * by apply list_elem_of_In, get_Some_elem.
Qed.

Lemma client_list_reflects_table_witness :
  wf_state state_init ∧
  ∃ views,
    get_admin_clients state_init = Respond 200 (ClientsBody views) ∧
    List.map ClientView.id views = ["highway-projects"].
Proof.
  split; [apply wf_state_init|].
  destruct (client_list_reflects_table state_init wf_state_init)
    as (views & Hviews & Hids & _).
  exists views. split; [exact Hviews | exact Hids].
Defined.

Lemma insert_index_front {V} n k (v : V) o :
  Forall (λ k', Obj.array_index k' = None) (Obj.keys o) →
  Obj.insert_index n k v o = (k, v) :: o.
Proof.
  destruct o as [|[k' v'] o]; simpl; [done|].
  intros [Hk' _]%Forall_cons. by rewrite Hk'.
Qed.

(** X13.  Where a new client is listed (its id names no member of
    [Object.prototype]): a client created under an id that is not an array
    index comes last in the table; one created under an array index (a
    name such as [2024]) comes first when no other id is an array index.
    The clients that were there keep their order. *)
Theorem new_client_position (name : string) (contact : option string)
    (st : State) :
  name ≠ "" →
  Obj.get (derive_clientId name) (clients st) = None →
  Js.inherited (derive_clientId name) = false →
  let id := derive_clientId name in
  let client := Client.mk name (Js.or_else contact "") [] None in
  let st1 := (post_admin_client (Some name) contact st).2 in
  (Obj.array_index id = None → clients st1 = clients st ++ [(id, client)])
  ∧ (is_Some (Obj.array_index id) →
     Forall (λ k, Obj.array_index k = None) (Obj.keys (clients st)) →
     clients st1 = (id, client) :: clients st)
  ∧ Obj.remove id (clients st1) = clients st.
Proof.
  intros Hname Hnew Hinh id client st1. subst id client st1.
  unfold post_admin_client.
  rewrite (falsy_Some_nonempty name Hname). cbn [from_option default id].
  rewrite (read_client_absent _ _ Hnew Hinh). cbn [Js.truthy snd clients].
  split_and!.
  - intros Hidx. unfold Obj.set. by rewrite Hnew, Hidx.
  - intros [n Hidx] Hkeys. unfold Obj.set. rewrite Hnew, Hidx.
    by apply insert_index_front.
  - by apply remove_set_new.
Qed.

Lemma new_client_position_witness :
  "2024" ≠ "" ∧
  clients (post_admin_client (Some "2024") None state_init).2
  = ("2024", Client.mk "2024" "" [] None) :: clients state_init ∧
  clients (post_admin_client (Some "Acme Co") None state_init).2
  = clients state_init ++ [("acme-co", Client.mk "Acme Co" "" [] None)].
Proof.
  split; [done|]. split.
  - refine (proj1 (proj2 (new_client_position "2024" None state_init _ _ _))
              _ _); [done | reflexivity | reflexivity | by eexists |].
    repeat constructor.
  - refine (proj1 (new_client_position "Acme Co" None state_init _ _ _) _);
      [done | reflexivity | reflexivity | reflexivity].
Defined.

(** ** Clients with the same display name *)

(** X14.  Of two clients whose display names are equal up to case, only
    the one that comes first in the table can be looked up: no client name
    reaches the later one, and every lookup that finds a client answers
    from a client that some name reaches. *)
Theorem later_namesake_is_never_reached
    (cs before rest : Obj.t Client.t) (k1 k2 : string) (c1 c2 : Client.t) :
  Obj.wf cs →
  cs = before ++ (k1, c1) :: rest →
  (k2, c2) ∈ rest →
  Js.toLowerCase (Client.name c1) = Js.toLowerCase (Client.name c2) →
  (∀ clientName, ¬ reached_by clientName k2 cs)
  ∧ (∀ clientName c,
       findClientByName clientName cs = Some c →
       ∃ k, k ≠ k2 ∧ reached_by clientName k cs ∧ Obj.get k cs = Some c).
Proof.
  intros Hwf Hcs Hin Hname.
  assert (∀ clientName, ¬ reached_by clientName k2 cs) as Hnever.
  { intros clientName (b' & c' & a' & Hcs' & Hc' & Hb').
    assert (Obj.get k2 cs = Some c2) as Hget2.
    { apply get_elem_wf; [done|]. rewrite Hcs.
      apply elem_of_app. right. by right. }
    assert (Obj.get k2 cs = Some c') as Hget2'.
    { apply get_elem_wf; [done|]. rewrite Hcs'.
      apply elem_of_app. right. left. }
    assert (c' = c2) as -> by congruence.
    apply list_elem_of_lookup in Hin as [j Hj].
    assert (Obj.keys cs !! (length before + S j) = Some k2) as Hi.
    { unfold Obj.keys. rewrite Hcs, list_lookup_fmap.
      rewrite lookup_app_r by lia.
      replace (length before + S j - length before) with (S j) by lia.
      simpl. by rewrite Hj. }
    assert (Obj.keys cs !! length b' = Some k2) as Hi'.
    { unfold Obj.keys. rewrite Hcs', list_lookup_fmap.
      rewrite lookup_app_r by lia. by rewrite Nat.sub_diag. }
    pose proof (NoDup_lookup _ _ _ _ Hwf Hi Hi') as Hlen.
    apply (Hb' (k1, c1)); [|simpl; congruence].
    apply list_elem_of_lookup. exists (length before).
    assert ((cs : list (string * Client.t)) !! length before
            = Some (k1, c1)) as Hk1.
    { rewrite Hcs, lookup_app_r by lia. by rewrite Nat.sub_diag. }
    rewrite Hcs', lookup_app_l in Hk1 by lia. done. }
  split; [done|].
  intros clientName c Hfind.
  destruct (findClientByName_Some _ _ _ Hfind)
    as (Hmatch & bv & av & Hvals & Hbv).
  unfold Obj.values in Hvals.
  apply fmap_app_inv in Hvals as (b' & a0 & Hb'eq & Ha0 & Hcs').
  destruct a0 as [|[k c0] a']; [done|]. simpl in Ha0.
  injection Ha0 as <- Ha'.
  assert (reached_by clientName k cs) as Hreach.
  { exists b', c, a'. split_and!; [done | done |].
    intros kc Hkc. apply Hbv. rewrite Hb'eq.
    apply list_elem_of_fmap. by exists kc. }
  exists k. split_and!; [|done|].
  - intros ->. by apply (Hnever clientName).
  - apply get_elem_wf; [done|]. rewrite Hcs'.
    apply elem_of_app. right. left.
Qed.

Lemma later_namesake_is_never_reached_witness :
  let cs :=
    [("acme-co", Client.mk "Acme Co" "" [] None);
     ("Acme-co", Client.mk "Acme Co" ""
                   [("p1", Project.mk "1-a.glb" "Project p1" "2025-09-17")]
                   None)]
  in
  Obj.wf cs ∧
  ¬ reached_by "acme co" "Acme-co" cs ∧
  findClientByName "acme co" cs = Some (Client.mk "Acme Co" "" [] None).
Proof.
  intros cs.
  assert (Obj.wf cs) as Hwf.
  { unfold Obj.wf. simpl. apply NoDup_cons. split; [|apply NoDup_singleton].
    intros Hin%list_elem_of_singleton. discriminate. }
  split_and!; [exact Hwf | | reflexivity].
  refine (proj1 (later_namesake_is_never_reached cs [] _ "acme-co" "Acme-co"
                   _ _ Hwf eq_refl _ _) "acme co");
    [apply list_elem_of_singleton; reflexivity | reflexivity].
Defined.

(** ** A deleted project is gone *)

Lemma delete_project_frame_facts clientId projectId st st' body :
  (∀ client, Obj.get clientId (clients st) = Some client →
             inherits projectId client = false) →
  delete_admin_project clientId projectId st = (Respond 200 body, st') →
  ∃ client',
    Obj.get clientId (clients st') = Some client' ∧
    Client.read_project projectId client' = Js.Undefined.
Proof.
  intros Hplain Hdel.
  destruct (delete_admin_project_200 _ _ _ _ _ Hdel)
    as (client & project & d & Hc & Hp & Hm & -> & ->).
  exists (without_project projectId client). split.
  - simpl. by rewrite get_update_eq, Hc.
  - rewrite read_project_plain by apply (Hplain client Hc).
    simpl. by rewrite get_remove_eq.
Qed.

(** X15.  After a successful delete of a project whose id names nothing
    the client's projects inherit, the same delete again answers status
    404 with [Project not found] and changes nothing, and a lookup of the
    project under a name that reaches the client answers status 404 with
    the message that the project is not found for that client. *)
Theorem deleted_project_is_not_found (clientId projectId : string)
    (st st' : State) (body : Body) :
  wf_state st →
  (∀ client, Obj.get clientId (clients st) = Some client →
             inherits projectId client = false) →
  delete_admin_project clientId projectId st = (Respond 200 body, st') →
  delete_admin_project clientId projectId st'
    = (Respond 404 (ErrorBody "Project not found"), st')
  ∧ ∀ clientName,
      reached_by clientName clientId (clients st') →
      ∃ client,
        Obj.get clientId (clients st') = Some client ∧
        get_client_project clientName projectId st'
        = Respond 404
            (ErrorBody ("Project " +:+ dquote +:+ projectId +:+ dquote +:+
                        " not found for " +:+ Client.name client)).
Proof.
  intros Hwf Hplain Hdel.
  assert (wf_state st') as [Hwf' _].
  { pose proof (delete_admin_project_wf clientId projectId st Hwf) as H.
    by rewrite Hdel in H. }
  destruct (delete_project_frame_facts clientId projectId st st' body
              Hplain Hdel) as (client' & Hget & Hgone).
  split.
  - unfold delete_admin_project.
    rewrite (read_client_own _ _ _ Hget). simpl. by rewrite Hgone.
  - intros clientName Hreach.
    destruct (reached_by_found _ _ _ Hwf' Hreach) as (c & Hfind & Hc).
    rewrite Hget in Hc. injection Hc as <-.
    exists client'. split; [done|].
    unfold get_client_project. by rewrite Hfind, Hgone.
Qed.

Lemma deleted_project_is_not_found_witness :
  let st' :=
    mkState
      [("highway-projects",
        Client.mk "Highway Projects Inc." "john@highwayproj.com" [] None)]
      (Fs.mk ∅ ∅ ∅) in
  delete_admin_project "highway-projects" "highway001" state_init
    = (Respond 200
         (ProjectDeletedBody
            "Project highway001 moved to backup successfully" 0), st') ∧
  delete_admin_project "highway-projects" "highway001" st'
    = (Respond 404 (ErrorBody "Project not found"), st').
Proof.
  intros st'.
  assert (delete_admin_project "highway-projects" "highway001" state_init
          = (Respond 200
               (ProjectDeletedBody
                  "Project highway001 moved to backup successfully" 0), st'))
    as Hdel by reflexivity.
  split; [exact Hdel|].
  refine (proj1 (deleted_project_is_not_found _ _ _ _ _ wf_state_init _
                   Hdel)).
  by intros client [= <-].
Defined.

(** ** The size limit *)

(** X16.  A file of more than 100 * 1024 * 1024 bytes is never stored and
    never linked: whatever its type and the ids sent with it, when no file
    of its stored name is in the upload directory yet, the upload ends in
    an error and the state is as before (the clean-up removes only what
    this upload wrote).  A model file of exactly that size is stored. *)
Theorem oversized_upload_changes_nothing (now : N) (today : string)
    (file : File.t) (clientId projectId description : option string)
    (st : State) :
  (100 * 1024 * 1024 < File.size file)%N →
  storage_filename now file ∉ Fs.uploadDir (disk st) →
  (∃ message,
     post_admin_upload now today (Some file) clientId projectId
       description st
     = (NextError message, st))
  ∧ ∀ name mimetype,
      glb_file (File.mk name mimetype (100 * 1024 * 1024)) →
      storage_filename now (File.mk name mimetype (100 * 1024 * 1024))
        ∈ Fs.uploadDir
            (disk (post_admin_upload now today
                     (Some (File.mk name mimetype (100 * 1024 * 1024)))
                     clientId projectId description st).2).
Proof.
  intros Hsize Hfresh. split.
  - unfold post_admin_upload, upload_single.
    destruct (fileFilter_cases file) as [[_ ->]|[_ ->]].
    + apply N.ltb_lt in Hsize. unfold fileSize_limit. cbv zeta.
      rewrite Hsize. eexists. f_equal.
      destruct st as [cs [u b r]]. unfold Fs.unlink, Fs.write. simpl in *.
      do 2 f_equal. set_solver.
    + destruct st. by eexists.
  - intros name mimetype Hglb. unfold post_admin_upload.
    rewrite upload_single_accepted by (split; [done | by apply N.leb_le]).
    destruct (_ || _); simpl; [by apply elem_of_union_l, elem_of_singleton|].
    destruct (read_client _ _) as [c0|t0| |]; simpl;
      by apply elem_of_union_l, elem_of_singleton.
Qed.

Lemma oversized_upload_changes_nothing_witness :
  let file := File.mk "city.glb" "model/gltf-binary" 104857601 in
  (100 * 1024 * 1024 < File.size file)%N ∧
  ∃ message,
    post_admin_upload 1758121257346 "2025-09-17" (Some file)
      (Some "acme-co") (Some "p1") None state_init
    = (NextError message, state_init).
Proof.
  intros file.
  assert (100 * 1024 * 1024 < File.size file)%N as Hsize by reflexivity.
  split; [exact Hsize|].
  refine (proj1 (oversized_upload_changes_nothing 1758121257346 "2025-09-17"
                   file (Some "acme-co") (Some "p1") None state_init Hsize
                   _)).
  simpl. apply not_elem_of_empty.
Defined.

(** ** The standalone upload page *)




(** ** Ids are never empty *)

Lemma get_remove_None {V} k k' (o : Obj.t V) :
  Obj.get k o = None → Obj.get k (Obj.remove k' o) = None.
Proof.
  intros Hk. destruct (decide (k' = k)) as [->|Hne].
  - apply get_remove_eq.
  - by rewrite get_remove_ne.
Qed.

Lemma get_update_None {V} k k' (f : V → V) (o : Obj.t V) :
  Obj.get k o = None → Obj.get k (Obj.update k' f o) = None.
Proof.
  intros Hk. destruct (decide (k' = k)) as [->|Hne].
  - by rewrite get_update_eq, Hk.
  - by rewrite get_update_ne.
Qed.

Lemma assign_project_ids_nonempty k p c :
  k ≠ "" → Obj.get "" (Client.projects c) = None →
  Obj.get "" (Client.projects (Client.assign_project k p c)) = None.
Proof.
  intros Hk Hc. unfold Client.assign_project.
  destruct (Obj.get k (Client.projects c)); simpl;
    [by rewrite get_set_ne|].
  destruct (String.eqb k "__proto__"); simpl; [done|].
  by rewrite get_set_ne.
Qed.

Lemma handle_ids_nonempty r st :
  ids_nonempty st → ids_nonempty (handle r st).2.
Proof.
  intros [Hcs Hps].
  destruct r as [now today file cid pid descr| |name contact|cid pid|cid|n p];
    simpl; try done.
  - unfold post_admin_upload.
    destruct (upload_single now file (disk st)) as [[err|[stored|]] d];
      try done.
    destruct (Js.falsy cid) eqn:Hfc; [done|].
    destruct (Js.falsy pid) eqn:Hfp; [done|]. simpl.
    apply falsy_false in Hfc as (c & -> & Hc).
    apply falsy_false in Hfp as (p & -> & Hp). simpl.
    assert (Obj.get "" (ensure_client c (clients st)) = None ∧
            ∀ x, x ∈ Obj.values (ensure_client c (clients st)) →
                 Obj.get "" (Client.projects x) = None)
      as [Hcs' Hps'].
    { unfold ensure_client. destruct (Js.truthy _); [done|]. split.
      - by rewrite get_set_ne.
      - intros x [->|Hx]%values_set; [done | auto]. }
    destruct (read_client c (ensure_client c (clients st))) as [c0|t0| |];
      try done.
    split; simpl.
    + by apply get_update_None.
    + intros x [Hx|(v & Hv & ->)]%values_update; [auto|].
      apply assign_project_ids_nonempty; [done|].
      eapply Hps', get_Some_values, Hv.
  - unfold post_admin_client. destruct (Js.falsy name) eqn:Hf; [done|].
    apply falsy_false in Hf as (nm & -> & Hnm). cbn [from_option default id].
    destruct (Js.truthy _); [done|].
    split; cbn [snd clients].
    + rewrite get_set_ne; [done|]. by apply derive_clientId_nonempty.
    + intros x [->|Hx]%values_set; [done | auto].
  - unfold delete_admin_project.
    destruct (Js.truthy (read_client cid (clients st))); [|done]. simpl.
    destruct (read_client cid (clients st)) as [client| | |]; try done.
    destruct (Js.truthy (Client.read_project pid client)); [|done]. simpl.
    destruct (Client.read_project pid client) as [project| | |]; try done.
    destruct (move_to_backup _ _) as [d|]; [|done]. split; simpl.
    + by apply get_update_None.
    + intros x [Hx|(v & Hv & ->)]%values_update; [auto|]. simpl.
      apply get_remove_None. eapply Hps, get_Some_values, Hv.
  - unfold delete_admin_client.
    destruct (Js.truthy (read_client cid (clients st))); [|done]. simpl.
    destruct (read_client cid (clients st)) as [client| | |]; try done.
    destruct (move_all _ _) as [d|d]; [done|]. split; simpl.
    + by apply get_remove_None.
    + intros x Hx%values_remove. auto.
Qed.

(** X18.  In every state the process can reach by requests whose form
    fields are single strings, no client is filed under the empty id and
    no client has a project under the empty id: the upload refuses empty
    ids, and a non-empty name never derives the empty id. *)
Theorem reachable_ids_nonempty (st : State) :
  reachable st → ids_nonempty st.
Proof.
  intros (d & rs & ->).
  assert (ids_nonempty (mkState clients_init d)) as Hinit.
  { split; [done|]. by intros c ->%list_elem_of_singleton. }
  revert Hinit. generalize (mkState clients_init d). clear d.
  induction rs as [|r rs IH]; intros st0 H0; simpl; [done|].
  pose proof (handle_ids_nonempty r st0 H0) as H1.
  destruct (handle r st0) as [o st1]. specialize (IH st1 H1).
  by destruct (run rs st1).
Qed.

Lemma reachable_ids_nonempty_witness :
  let file := File.mk "tower.glb" "model/gltf-binary" 2048 in
  let rs :=
    [CreateClient (Some "Acme Co") None;
     Upload 1758121257346 "2025-09-17" (Some file) (Some "acme-co")
       (Some "__proto__") None;
     Upload 1758121257347 "2025-09-17" (Some file) (Some "beta")
       (Some "p1") (Some "")] in
  reachable (run rs state_init).2 ∧
  length (clients (run rs state_init).2) = 3 ∧
  ids_nonempty (run rs state_init).2.
Proof.
  intros file rs.
  assert (reachable (run rs state_init).2) as Hreach by (by eexists _, _).
  split_and!; [exact Hreach | reflexivity |].
  exact (reachable_ids_nonempty _ Hreach).
Defined.

(** ** Finding a client by the words of its id *)

Lemma lower_upper_char c :
  Js.lower_char (Js.upper_char c) = Js.lower_char c.
Proof. ascii_cases c; reflexivity. Qed.

Lemma toLowerCase_capitalize_words b s :
  Js.toLowerCase (Js.capitalize_words b s) = Js.toLowerCase s.
Proof.
  unfold Js.toLowerCase. revert b.
  induction s as [|c s IH]; intros b; simpl; [done|].
  rewrite IH. by destruct (Js.is_word c && negb b); rewrite ?lower_upper_char.
Qed.

(** X19.  A client created by an upload is found under the words of its
    id: after an accepted upload under a client id that was not in the
    table and names no member of [Object.prototype], a lookup by the id
    with its hyphens read as spaces, in any case, answers status 200 with
    the stored model and the humanized name, provided no client that was
    already there has that name (up to case). *)
Theorem new_client_is_found_by_its_id (now : N) (today : string)
    (file : File.t) (cid pid : string) (description : option string)
    (st : State) (other : string) :
  wf_state st →
  accepted_file file → cid ≠ "" → pid ≠ "" →
  Obj.get cid (clients st) = None →
  Js.inherited cid = false →
  (∀ c, c ∈ Obj.values (clients st) →
        Js.toLowerCase (Client.name c)
        ≠ Js.toLowerCase (Js.replace_char "-" " " cid)) →
  Js.toLowerCase other = Js.toLowerCase (Js.replace_char "-" " " cid) →
  get_client_project other pid
    (post_admin_upload now today (Some file) (Some cid) (Some pid)
       description st).2
  = Respond 200
      (ModelBody ("/uploads/" +:+ storage_filename now file)
         (humanize cid) pid (Js.or_else description ("Project " +:+ pid))).
Proof.
  intros Hwf Hacc Hc Hp Hnew Hinh Hnames Hother.
  set (st1 := (post_admin_upload now today (Some file) (Some cid) (Some pid)
                 description st).2).
  assert (wf_state st1) as [Hwf1 _] by by apply post_admin_upload_wf.
  destruct (post_admin_upload_linked_state now today file cid pid description
              st Hacc Hc Hp (or_intror Hinh)) as [Hget1 Hdisk].
  fold st1 in Hget1, Hdisk.
  rewrite Hnew in Hget1. simpl in Hget1.
  assert (∀ k p c, Client.name (Client.assign_project k p c) = Client.name c)
    as Hname.
  { intros k p c. unfold Client.assign_project.
    destruct (Obj.get k _); [done|]. by destruct (String.eqb k "__proto__"). }
  assert (reached_by (Js.replace_char "-" " " cid) cid (clients st1))
    as Hreach.
  { eapply reached_by_unique; [done | exact Hget1 | |].
    - rewrite Hname. apply toLowerCase_capitalize_words.
    - intros k' c' Hk' Hmatch.
      destruct (decide (k' = cid)) as [|Hne]; [done|].
      subst st1. rewrite post_admin_upload_other_client in Hk' by congruence.
      destruct (Hnames c'); [by eapply get_Some_values | done]. }
  destruct (reached_by_found _ _ _ Hwf1 Hreach) as (c & Hfind & Hget).
  rewrite Hget1 in Hget. injection Hget as <-.
  unfold get_client_project.
  rewrite (findClientByName_lower other _ _ Hother), Hfind.
  rewrite read_assign_project, Hname.
  cbn [Js.truthy Client.name Project.filename Project.description].
  rewrite Hdisk. unfold Fs.existsSync. simpl.
  rewrite bool_decide_eq_true_2; [done|].
  by apply elem_of_union_l, elem_of_singleton.
Qed.

Lemma new_client_is_found_by_its_id_witness :
  let file := File.mk "tower.glb" "model/gltf-binary" 2048 in
  accepted_file file ∧
  get_client_project "ACME CO" "p1"
    (post_admin_upload 1758121257346 "2025-09-17" (Some file)
       (Some "acme-co") (Some "p1") (Some "Tower") state_init).2
  = Respond 200
      (ModelBody "/uploads/1758121257346-tower.glb" "Acme Co" "p1" "Tower").
Proof.
  intros file.
  assert (accepted_file file) as Hacc.
  { split; [by left | by apply N.leb_le]. }
  split; [exact Hacc|].
  apply (new_client_is_found_by_its_id 1758121257346 "2025-09-17" file
           "acme-co" "p1" (Some "Tower") state_init "ACME CO" wf_state_init
           Hacc); [done | done | reflexivity | reflexivity | | reflexivity].
  intros c ->%list_elem_of_singleton. discriminate.
Defined.

(** ** A deleted client is gone *)

(** X20.  After a successful client delete, a lookup by a name that only
    the deleted client had (up to case) answers status 404 with the
    message that the client is not found, whatever the project asked
    for. *)
Theorem deleted_client_is_not_found (clientId : string) (st st' : State)
    (body : Body) (clientName projectNumber : string) :
  wf_state st →
  delete_admin_client clientId st = (Respond 200 body, st') →
  (∀ k c, Obj.get k (clients st) = Some c →
          Js.toLowerCase (Client.name c) = Js.toLowerCase clientName →
          k = clientId) →
  get_client_project clientName projectNumber st'
  = Respond 404
      (ErrorBody ("Client " +:+ dquote +:+ clientName +:+ dquote +:+
                  " not found")).
Proof.
  intros [Hwf _] (client & _ & _ & Hcs & _)%delete_admin_client_200 Honly.
  assert (findClientByName clientName (clients st') = None) as Hfind.
  { apply findClientByName_None. intros c Hc Hmatch. rewrite Hcs in Hc.
    unfold Obj.values in Hc.
    apply list_elem_of_fmap in Hc as ([k c'] & -> & Hin). simpl in Hmatch.
    apply (get_elem_wf _ _ _ (wf_remove clientId _ Hwf)) in Hin.
    destruct (decide (clientId = k)) as [->|Hne].
    - by rewrite get_remove_eq in Hin.
    - rewrite get_remove_ne in Hin by done.
      destruct Hne. symmetry. by eapply Honly. }
  unfold get_client_project. by rewrite Hfind.
Qed.

Lemma deleted_client_is_not_found_witness :
  wf_state state_init ∧
  get_client_project "highway projects inc." "highway001"
    (delete_admin_client "highway-projects" state_init).2
  = Respond 404
      (ErrorBody ("Client " +:+ dquote +:+ "highway projects inc." +:+
                  dquote +:+ " not found")).
Proof.
  split; [apply wf_state_init|].
  eapply (deleted_client_is_not_found "highway-projects" state_init);
    [apply wf_state_init | reflexivity |].
  intros k c Hget _.
  assert (k ∈ Obj.keys (clients state_init)) as Hk
    by (apply get_Some_keys; by eexists).
  by apply list_elem_of_singleton in Hk.
Defined.

(** ** Projects that share a stored file *)

(** X21.  A successful project delete takes the project's file out of the
    upload directory, so every project that is still in the table with
    the same stored file name (two uploads of one name in the same
    millisecond) is answered with status 404 [Model file not found] from
    then on. *)
Theorem delete_breaks_projects_sharing_the_file
    (clientId projectId : string) (st st' : State) (body : Body)
    (client : Client.t) (project : Project.t)
    (clientName k q : string) (client' : Client.t) (project' : Project.t) :
  wf_state st →
  Obj.get clientId (clients st) = Some client →
  Obj.get projectId (Client.projects client) = Some project →
  delete_admin_project clientId projectId st = (Respond 200 body, st') →
  reached_by clientName k (clients st') →
  Obj.get k (clients st') = Some client' →
  Obj.get q (Client.projects client') = Some project' →
  Project.filename project' = Project.filename project →
  (Project.filename project ∉ Fs.uploadDir (disk st'))
  ∧ get_client_project clientName q st'
    = Respond 404 (ErrorBody "Model file not found").
Proof.
  intros Hwf Hc Hp Hdel Hreach Hk Hq Hsame.
  assert (wf_state st') as [Hwf' _].
  { pose proof (delete_admin_project_wf clientId projectId st Hwf) as H.
    by rewrite Hdel in H. }
  assert (Project.filename project ∉ Fs.uploadDir (disk st')) as Hgone.
  { destruct (delete_admin_project_200 _ _ _ _ _ Hdel)
      as (client0 & project0 & d & Hc0 & Hp0 & Hm & _ & ->).
    rewrite Hc in Hc0. injection Hc0 as <-.
    rewrite (read_project_own _ _ _ Hp) in Hp0. injection Hp0 as <-.
    simpl. destruct (move_to_backup_dirs _ _ _ Hm) as (-> & _).
    rewrite elem_of_difference, elem_of_singleton. by intros [_ ?]. }
  split; [done|].
  destruct (reached_by_found _ _ _ Hwf' Hreach) as (c & Hfind & Hget).
  rewrite Hk in Hget. injection Hget as <-.
  unfold get_client_project. rewrite Hfind, (read_project_own _ _ _ Hq).
  simpl. rewrite Hsame.
  unfold Fs.existsSync. by rewrite bool_decide_eq_false_2.
Qed.

Lemma delete_breaks_projects_sharing_the_file_witness :
  let file := File.mk "tower.glb" "model/gltf-binary" 2048 in
  let st2 :=
    (run [Upload 1758121257346 "2025-09-17" (Some file)
            (Some "acme-co") (Some "p1") None;
          Upload 1758121257346 "2025-09-17" (Some file)
            (Some "acme-co") (Some "p2") None] state_init).2 in
  let st3 := (delete_admin_project "acme-co" "p1" st2).2 in
  get_client_project "Acme Co" "p2" st2
  = Respond 200
      (ModelBody "/uploads/1758121257346-tower.glb" "Acme Co" "p2"
         "Project p2") ∧
  get_client_project "Acme Co" "p2" st3
  = Respond 404 (ErrorBody "Model file not found").
Proof.
  intros file st2 st3.
  split; [reflexivity|].
  assert (wf_state st2) as Hwf by apply run_wf, wf_state_init.
  assert (delete_admin_project "acme-co" "p1" st2
          = (Respond 200
               (ProjectDeletedBody "Project p1 moved to backup successfully"
                  1), st3)) as Hdel by reflexivity.
  refine (proj2 (delete_breaks_projects_sharing_the_file "acme-co" "p1" st2
                   st3 _ _ _ "Acme Co" "acme-co" "p2" _ _ Hwf _ _ Hdel _ _ _
                   _)); try reflexivity.
  eexists [_], _, []. split_and!; [reflexivity | reflexivity |].
  intros kc ->%list_elem_of_singleton. discriminate.
Defined.

(** ** Ids that name inherited properties *)

Lemma update_fixed {V} k (f : V → V) (o : Obj.t V) :
  (∀ v, Obj.get k o = Some v → f v = v) → Obj.update k f o = o.
Proof.
  induction o as [|[k' v'] o IH]; simpl; [done|].
  destruct (String.eqb_spec k' k) as [->|Hne]; intros Hf.
  - by rewrite Hf.
  - by rewrite IH.
Qed.

Lemma assign_project_proto p c :
  Obj.get "__proto__" (Client.projects c) = None →
  Client.assign_project "__proto__" p c
  = Client.mk (Client.name c) (Client.contact c) (Client.projects c) (Some p).
Proof. unfold Client.assign_project. by intros ->. Qed.

(** C6, where the code departs from it.  A project uploaded under the id
    [__proto__] becomes the prototype of the client's projects object and
    is no property of it: the upload leaves the project count as it was.
    The delete of that project id then answers status 200 and moves the
    file to the backup directory, but removes nothing: the table is the
    same after the delete, the project count has not decreased, and the
    count returned is the unchanged one. *)
Theorem delete_proto_project_removes_nothing (now : N) (today : string)
    (file : File.t) (cid : string) (description : option string)
    (st : State) (client : Client.t) :
  accepted_file file → cid ≠ "" →
  Obj.get cid (clients st) = Some client →
  Obj.get "__proto__" (Client.projects client) = None →
  storage_filename now file ∉ Fs.rename_raises (disk st) →
  let up :=
    post_admin_upload now today (Some file) (Some cid) (Some "__proto__")
      description st in
  let out := delete_admin_project cid "__proto__" (snd up) in
  succeeded (fst up) = true
  ∧ projectCount cid (clients (snd up)) = projectCount cid (clients st)
  ∧ fst out
    = Respond 200
        (ProjectDeletedBody "Project __proto__ moved to backup successfully"
           (projectCount cid (clients (snd up))))
  ∧ clients (snd out) = clients (snd up)
  ∧ projectCount cid (clients (snd out)) = projectCount cid (clients (snd up))
  ∧ storage_filename now file ∈ Fs.backupDir (disk (snd out)).
Proof.
  intros Hacc Hc Hget Hown Hraise up out.
  assert (up
          = (Respond 200
               (UploadedBody "Model uploaded and linked successfully"
                  (storage_filename now file)
                  ("/uploads/" +:+ storage_filename now file) cid "__proto__"),
             mkState
               (Obj.update cid
                  (Client.assign_project "__proto__"
                     (Project.mk (storage_filename now file)
                        (Js.or_else description ("Project " +:+ "__proto__"))
                        today))
                  (clients st))
               (Fs.write (storage_filename now file) (disk st)))) as Hup.
  { subst up.
    rewrite (post_admin_upload_linked _ _ _ _ _ _ _ Hacc Hc)
      by (done || (left; by eexists)).
    by rewrite (ensure_client_own _ _ _ Hget). }
  set (project := Project.mk (storage_filename now file)
                    (Js.or_else description ("Project " +:+ "__proto__"))
                    today) in Hup.
  set (client1 := Client.mk (Client.name client) (Client.contact client)
                    (Client.projects client) (Some project)).
  assert (Obj.get cid (clients (snd up)) = Some client1) as Hget1.
  { rewrite Hup. simpl. rewrite get_update_eq, Hget. simpl.
    by rewrite (assign_project_proto _ _ Hown). }
  assert (Client.read_project "__proto__" client1 = Js.Entry project)
    as Hread.
  { unfold Client.read_project. simpl. by rewrite Hown. }
  assert (move_to_backup (storage_filename now file) (disk (snd up))
          = Some (Fs.mk
                    (Fs.uploadDir (disk (snd up))
                       ∖ {[storage_filename now file]})
                    ({[storage_filename now file]}
                       ∪ Fs.backupDir (disk (snd up)))
                    (Fs.rename_raises (disk (snd up))))) as Hmove.
  { apply move_to_backup_moves; rewrite Hup; simpl; [|done].
    by apply elem_of_union_l, elem_of_singleton. }
  assert (Obj.update cid (Client.delete_project "__proto__")
            (clients (snd up))
          = clients (snd up)) as Hsame.
  { apply update_fixed. intros v Hv. rewrite Hget1 in Hv.
    injection Hv as <-. unfold Client.delete_project.
    simpl. by rewrite (remove_absent _ _ Hown). }
  assert (out
          = (Respond 200
               (ProjectDeletedBody
                  "Project __proto__ moved to backup successfully"
                  (length (Obj.keys (Client.projects client)))),
             mkState (clients (snd up))
               (Fs.mk
                  (Fs.uploadDir (disk (snd up))
                     ∖ {[storage_filename now file]})
                  ({[storage_filename now file]}
                     ∪ Fs.backupDir (disk (snd up)))
                  (Fs.rename_raises (disk (snd up)))))) as Hout.
  { subst out. unfold delete_admin_project.
    rewrite (read_client_own _ _ _ Hget1). cbn [Js.truthy negb].
    rewrite Hread. cbn [Js.truthy negb Project.filename project].
    rewrite Hmove, Hsame. cbn [Client.projects client1].
    by rewrite (remove_absent _ _ Hown). }
  assert (projectCount cid (clients (snd up)) = projectCount cid (clients st))
    as Hcount.
  { unfold projectCount. by rewrite Hget1, Hget. }
  rewrite Hout. cbn [fst snd clients disk Fs.backupDir].
  split_and!; try done.
  - by rewrite Hup.
  - rewrite Hcount. unfold projectCount. by rewrite Hget.
  - by apply elem_of_union_l, elem_of_singleton.
Qed.

Lemma delete_proto_project_removes_nothing_witness :
  let file := File.mk "tower.glb" "model/gltf-binary" 2048 in
  let up :=
    post_admin_upload 1758121257346 "2025-09-17" (Some file)
      (Some "highway-projects") (Some "__proto__") None state_init in
  let out := delete_admin_project "highway-projects" "__proto__" (snd up) in
  accepted_file file ∧
  projectCount "highway-projects" (clients (snd up)) = 1 ∧
  fst out
    = Respond 200
        (ProjectDeletedBody "Project __proto__ moved to backup successfully"
           1) ∧
  projectCount "highway-projects" (clients (snd out)) = 1.
Proof.
  intros file up out.
  assert (accepted_file file) as Hacc.
  { split; [by left | by apply N.leb_le]. }
  split; [exact Hacc|].
  edestruct (delete_proto_project_removes_nothing 1758121257346 "2025-09-17"
               file "highway-projects" None state_init)
    as (_ & Hcount & Hout & _ & Hcount' & _);
    [exact Hacc | done | reflexivity | reflexivity
     | simpl; apply not_elem_of_empty |].
  fold up in Hcount, Hout, Hcount'. fold out in Hout, Hcount'.
  rewrite Hcount in Hout, Hcount'. split_and!; [exact Hcount | exact Hout
                                                 | exact Hcount'].
Defined.

(** X26.  A name whose derived id names a member of [Object.prototype]
    can never be created: in every state, also when the table has no such
    client, the creation is refused with [Client already exists] and
    changes nothing.  Such an id is [constructor] or [__proto__]: the
    other members have a capital letter in their name, a derived id has
    none. *)
Theorem inherited_name_is_never_created (name : string)
    (contact : option string) (st : State) :
  Js.inherited (derive_clientId name) = true →
  post_admin_client (Some name) contact st
    = (Respond 400 (ErrorBody "Client already exists"), st)
  ∧ (derive_clientId name = "constructor" ∨ derive_clientId name = "__proto__").
Proof.
  intros Hinh.
  assert (name ≠ "") as Hname by (by intros ->).
  split.
  - unfold post_admin_client. rewrite (falsy_Some_nonempty name Hname).
    cbn [from_option default id].
    assert (Js.truthy (read_client (derive_clientId name) (clients st)) = true)
      as ->; [|done].
    apply read_client_truthy. by right.
  - assert (all_chars (λ c, negb (Js.is_upper c)) (derive_clientId name)
            = true) as Hlower.
    { apply derive_clientId_chars; [done|]. intros c.
      by rewrite lower_char_not_upper, orb_true_r. }
    unfold Js.inherited in Hinh. apply existsb_exists in Hinh as (k & Hk & Heq).
    apply String.eqb_eq in Heq. rewrite Heq in *. clear Heq.
    unfold Js.object_prototype_names in Hk.
    repeat (apply in_inv in Hk as [<-|Hk]; [by auto|]). done.
Qed.

Lemma inherited_name_is_never_created_witness :
  Obj.get "constructor" (clients state_init) = None ∧
  post_admin_client (Some "Constructor") None state_init
    = (Respond 400 (ErrorBody "Client already exists"), state_init).
Proof.
  split; [reflexivity|].
  exact (proj1 (inherited_name_is_never_created "Constructor" None state_init
                  eq_refl)).
Defined.


